(** * nri-prometheus: internal/pkg/prometheus, the scrape function [Get]

    A shallow embedding of [prometheus.go].  [Get] sends one HTTP GET, checks
    the status code, reads the body, decodes it family by family into a map
    keyed by family name, and records the payload size in two process-wide
    instruments.

    The collaborators of [Get] that live in other packages are interfaces or
    parameters here, the way the Go code receives them:
    - the transport is the interface [HTTPDoer];
    - the exposition-format decoder is the interface [Decoder]; the text
      decoder of expfmt is written out for bodies of plain sample lines, the
      rest of its format being a parameter;
    - [url_Parse] stands for the error of [url.Parse] in [http.NewRequest],
      and a parsed URL is known by the string it was parsed from.

    Numbers are the ones of the code: status codes are integers ([Z]), sizes
    are [float64] values (primitive binary64 floats). *)

From Stdlib Require Import ZArith PrimFloat Uint63 Floats Strings.Byte.
From stdpp Require Import gmap strings list pretty.

Local Open Scope Z_scope.

(** ** Go values *)

(** A Go [error] value.  [io_EOF] is the sentinel [io.EOF], compared with
    [==] in the decode loop; every other error is identified by its message. *)
Inductive error : Type :=
| io_EOF
| errorString (msg : string).

#[global] Instance error_eq_dec : EqDecision error.
Proof. solve_decision. Defined.

(** [fmt.Errorf] with the single verb [%d]: the format's text before the
    verb, then the integer in decimal. *)
Definition fmt_Errorf_d (prefix : string) (n : Z) : error :=
  errorString (prefix +:+ pretty n).

(** [float64(n)] for a non-negative Go [int]: round to nearest, ties to even. *)
Definition float64_of_int (n : Z) : float :=
  PrimFloat.of_uint63 (Uint63.of_Z n).

(** [len(b)] of a byte slice. *)
Definition len (b : list byte) : Z := Z.of_nat (length b).

(** The binary64 datum of a positive integer below [2^53]: the mantissa is
    the integer shifted to 53 digits, the exponent undoes the shift. *)
Definition SF_of_pos (q : positive) : spec_float :=
  S754_finite false (Pos.shiftl q (Z.to_N (53 - Zpos (digits2_pos q))))
    (Zpos (digits2_pos q) - 53).

(** The binary64 datum of an integer from 0 to [2^53 - 1]. *)
Definition SF_of_int (n : Z) : spec_float :=
  match n with
  | Zpos q => SF_of_pos q
  | _ => S754_zero false
  end.

(** ** client_model: [dto.MetricFamily] *)

Inductive MetricType : Type := COUNTER | GAUGE | SUMMARY | UNTYPED | HISTOGRAM.

Record LabelPair : Type := {
  lp_Name : option string;
  lp_Value : option string
}.

Record Quantile : Type := {
  q_Quantile : option float;
  q_Value : option float
}.

Record Bucket : Type := {
  b_CumulativeCount : option Z;
  b_UpperBound : option float
}.

Record Summary : Type := {
  s_SampleCount : option Z;
  s_SampleSum : option float;
  s_Quantile : list Quantile
}.

Record Histogram : Type := {
  h_SampleCount : option Z;
  h_SampleSum : option float;
  h_Bucket : list Bucket
}.

(** One sample.  The value fields are pointers in Go: [None] is nil. *)
Record Metric : Type := {
  Label : list LabelPair;
  Gauge_value : option float;
  Counter_value : option float;
  Summary_value : option Summary;
  Untyped_value : option float;
  Histogram_value : option Histogram;
  TimestampMs : option Z
}.

Record MetricFamily : Type := {
  Name : option string;
  Help : option string;
  Type_ : option MetricType;
  Metrics : list Metric
}.

(** [MetricFamily.GetName]: the name, or the empty string when unset. *)
Definition GetName (mf : MetricFamily) : string :=
  match Name mf with
  | Some n => n
  | None => EmptyString
  end.

(** [type MetricFamiliesByName map[string]dto.MetricFamily].  A Go map value
    is either nil or a (possibly empty) table: [None] is the nil map. *)
Definition MetricFamiliesByName : Type := option (gmap string MetricFamily).

(** ** net/http *)

(** A parsed URL, the value [url.Parse] returns for a string that parses.
    Its components and its printed form are the business of net/url and are
    not modelled: the value is known by the string it was parsed from. *)
Inductive ParsedURL : Type :=
| url_Parse_value (rawURL : string).

(** [http.Request]: the method, the parsed URL and the header, which is
    [map[string][]string]. *)
Record Request : Type := {
  Method : string;
  URL : ParsedURL;
  Header : gmap string (list string)
}.

(** [Header.Add]: append the value to the values of the key.  Both keys used
    by [Get] are already in canonical MIME form. *)
Definition Header_Add (key value : string) (req : Request) : Request :=
  {| Method := Method req;
     URL := URL req;
     Header := <[key := default [] (Header req !! key) ++ [value]]> (Header req) |}.

(** A response body: the bytes the stream delivers, and the error that ends
    it when it does not end with a clean end of stream. *)
Record ReadCloser : Type := {
  stream : list byte;
  failure : option error
}.

Record Response : Type := {
  StatusCode : Z;
  Body : ReadCloser
}.

(** [ioutil.ReadAll]: everything read, and the error other than end of
    stream, if any. *)
Definition ioutil_ReadAll (r : ReadCloser) : list byte * option error :=
  (stream r, failure r).

(** The interface [HTTPDoer], with its one method
    [Do(req) (response, error)].
    The implementation may keep state of its own. *)
Class HTTPDoer (C : Type) : Type :=
  Do : C → Request → C * (Response + error).

(** ** expfmt *)

Inductive Format : Type :=
| FmtUnknown | FmtText | FmtProtoDelim | FmtProtoText | FmtProtoCompact.

(** [expfmt.Decoder]: [Decode] fills in one family or returns an error;
    [io.EOF] signals the end of the input. *)
Class Decoder (D : Type) : Type := {
  NewDecoder : list byte → Format → D;
  Decode : D → D * (MetricFamily + error)
}.

(** *** A transport that records what it is asked

    The instance used to observe the request [Get] hands to its client, as a
    test double does: it appends every request to [calls] and answers with
    [reply]. *)
Record Spy : Type := {
  calls : list Request;
  reply : Request → Response + error
}.

#[global] Instance Spy_HTTPDoer : HTTPDoer Spy :=
  λ c req, ({| calls := calls c ++ [req]; reply := reply c |}, reply c req).

(** *** A line-oriented decoder

    A small decoder over the interface, for running [Get] on concrete bodies.
    Every line [name SP digits LF] is one untyped family with one sample; the
    input is read in one go, the families are then handed out one per call,
    and the last call returns [io.EOF], or the parse error when a line is
    malformed. *)
Definition parse_error : error := errorString "text format parsing error".

Definition digit (b : byte) : option Z :=
  let n := Z.of_N (Byte.to_N b) in
  if (48 <=? n) && (n <=? 57) then Some (n - 48) else None.

Fixpoint number (acc : Z) (bs : list byte) : option Z :=
  match bs with
  | [] => Some acc
  | b :: bs' =>
    match digit b with
    | Some d => number (10 * acc + d) bs'
    | None => None
    end
  end.

Definition untyped_sample (v : float) : Metric :=
  {| Label := []; Gauge_value := None; Counter_value := None;
     Summary_value := None; Untyped_value := Some v;
     Histogram_value := None; TimestampMs := None |}.

Definition line_family (name value : list byte) : option MetricFamily :=
  match name, value, number 0 value with
  | _ :: _, _ :: _, Some v =>
    Some {| Name := Some (String.string_of_list_byte name); Help := None;
            Type_ := Some UNTYPED;
            Metrics := [untyped_sample (float64_of_int v)] |}
  | _, _, _ => None
  end.

Fixpoint scan_lines (bs name : list byte) (value : option (list byte))
  : list MetricFamily * error :=
  match bs with
  | [] =>
    match name, value with
    | [], None => ([], io_EOF)
    | _, _ => ([], parse_error)
    end
  | b :: bs' =>
    if Byte.eqb b x0a then
      match value with
      | Some v =>
        match line_family name v with
        | Some mf => let (fs, e) := scan_lines bs' [] None in (mf :: fs, e)
        | None => ([], parse_error)
        end
      | None => ([], parse_error)
      end
    else
      match value with
      | None =>
        if Byte.eqb b x20 then scan_lines bs' name (Some [])
        else scan_lines bs' (name ++ [b]) None
      | Some v => scan_lines bs' name (Some (v ++ [b]))
      end
  end.

(** The families still to hand out, and the error that follows them. *)
Definition LineDecoder : Type := (list MetricFamily * error)%type.

#[global] Instance LineDecoder_Decoder : Decoder LineDecoder := {
  NewDecoder body _ := scan_lines body [] None;
  Decode d :=
    match d.1 with
    | [] => (d, inr d.2)
    | mf :: fs => ((fs, d.2), inl mf)
    end
}.

(** *** The text decoder of expfmt on plain sample lines

    The decoder [Get] asks for, [NewDecoder(r, FmtText)], is the text decoder
    of the package expfmt.  It reads the whole input at its first call,
    collects the samples into families by metric name, a sample of a name
    seen before joining the family of that name, and then hands the families
    out one per call, in the order in which Go ranges over a map, which is
    not fixed.  Its parser is written out here for the bodies made of plain
    sample lines only: every line is a metric name, one space, an unsigned
    decimal integer below [2^53] and a line feed.  What the parser returns on
    any other body, and the order of the range, are parameters. *)

Definition isValidMetricNameStart (b : byte) : bool :=
  let n := Z.of_N (Byte.to_N b) in
  ((97 <=? n) && (n <=? 122)) || ((65 <=? n) && (n <=? 90))
  || (n =? 95) || (n =? 58).

Definition isValidMetricNameContinuation (b : byte) : bool :=
  let n := Z.of_N (Byte.to_N b) in
  isValidMetricNameStart b || ((48 <=? n) && (n <=? 57)).

(** A metric name: a letter, an underscore or a colon, then letters, digits,
    underscores and colons. *)
Definition plain_name (bs : list byte) : option string :=
  match bs with
  | [] => None
  | b :: rest =>
    if isValidMetricNameStart b && forallb isValidMetricNameContinuation rest
    then Some (String.string_of_list_byte bs)
    else None
  end.

(** A value: at least one decimal digit and nothing else, below [2^53]. *)
Definition plain_value (bs : list byte) : option Z :=
  match bs, number 0 bs with
  | _ :: _, Some v => if v <? 2 ^ 53 then Some v else None
  | _, _ => None
  end.

(** The lines of a body, each cut at its first space; [None] when a line has
    no space or the last line has no line feed. *)
Fixpoint split_plain_lines (bs name : list byte) (value : option (list byte))
  : option (list (list byte * list byte)) :=
  match bs with
  | [] =>
    match name, value with
    | [], None => Some []
    | _, _ => None
    end
  | b :: bs' =>
    if Byte.eqb b x0a then
      match value with
      | Some v => cons (name, v) <$> split_plain_lines bs' [] None
      | None => None
      end
    else
      match value with
      | None =>
        if Byte.eqb b x20 then split_plain_lines bs' name (Some [])
        else split_plain_lines bs' (name ++ [b]) None
      | Some v => split_plain_lines bs' name (Some (v ++ [b]))
      end
  end.

Definition plain_sample (l : list byte * list byte) : option (string * Z) :=
  match plain_name l.1, plain_value l.2 with
  | Some n, Some v => Some (n, v)
  | _, _ => None
  end.

(** The samples of a body of plain sample lines, in the order of the body;
    [None] for any other body. *)
Definition plain_samples (body : list byte) : option (list (string * Z)) :=
  match split_plain_lines body [] None with
  | Some ls => mapM plain_sample ls
  | None => None
  end.

(** What the parser does with one sample line: the family of the name is
    looked up, made if there is none yet, with the type untyped, and the
    sample is appended to it. *)
Definition add_sample (fams : gmap string MetricFamily) (nv : string * Z)
  : gmap string MetricFamily :=
  let currentMF :=
    default {| Name := Some nv.1; Help := None; Type_ := Some UNTYPED;
               Metrics := [] |} (fams !! nv.1) in
  <[nv.1 := {| Name := Name currentMF; Help := Help currentMF;
               Type_ := Type_ currentMF;
               Metrics := Metrics currentMF
                          ++ [untyped_sample (float64_of_int nv.2)] |}]> fams.

Section TextDecoder.

(** What the parser returns on a body that is not made of plain sample
    lines: the families read and the error, if any. *)
Variable TextToMetricFamilies_other
  : list byte → gmap string MetricFamily * option error.

(** The order in which the families of the map are handed out. *)
Variable range : gmap string MetricFamily → list MetricFamily.

Definition TextToMetricFamilies (body : list byte)
  : gmap string MetricFamily * option error :=
  match plain_samples body with
  | Some samples => (foldl add_sample ∅ samples, None)
  | None => TextToMetricFamilies_other body
  end.

(** The decoder [NewDecoder] returns for the format [FmtText], the only one
    [Get] asks for: the families still to hand out, and the error that
    follows them, [io.EOF] when the parser returned none. *)
Definition textDecoder : Decoder (list MetricFamily * error) :=
  {| NewDecoder body _ :=
       let (fams, err) := TextToMetricFamilies body in
       (range fams, default io_EOF err);
     Decode d :=
       match d.1 with
       | [] => (d, inr d.2)
       | mf :: rest => ((rest, d.2), inl mf)
       end |}.

End TextDecoder.

(** The values of the samples of [samples] that carry the name [n], in
    order, and the untyped family of a name with given sample values. *)
Definition samples_of (n : string) (samples : list (string * Z)) : list Z :=
  (filter (λ nv, nv.1 = n) samples).*2.

Definition samples_family (n : string) (vs : list Z) : MetricFamily :=
  {| Name := Some n; Help := None; Type_ := Some UNTYPED;
     Metrics := (λ v, untyped_sample (float64_of_int v)) <$> vs |}.

(** Values for the two parameters in the examples, whose bodies are all made
    of plain sample lines: the range order of [map_to_list], and a parser
    that gives up on any other body. *)
Definition example_range (fams : gmap string MetricFamily) : list MetricFamily :=
  (map_to_list fams).*2.

Definition example_other (body : list byte)
  : gmap string MetricFamily * option error :=
  (∅, Some parse_error).

(** ** The two instruments *)

(** Modelled from the spec: the package variables [targetSize] and
    [totalScrapedPayload] are declared in another file of the package.
    [targetSize] is a gauge vector with the single label [target], one series
    per label value, with [With(labels).Set(v)] and [Reset()] (drop every
    series); [totalScrapedPayload] is a single number with [Add(v)] and
    [Set(v)]. *)
Record Instruments : Type := {
  targetSize : gmap string float;
  totalScrapedPayload : float
}.

(** Modelled from the spec: [targetSize.With(Labels{target}).Set(v)] makes
    [v] the value of the series of that label value. *)
Definition targetSize_With_Set (target : string) (v : float) (s : Instruments) : Instruments :=
  {| targetSize := <[target := v]> (targetSize s);
     totalScrapedPayload := totalScrapedPayload s |}.

(** Modelled from the spec: [targetSize.Reset()] drops every series. *)
Definition targetSize_Reset (s : Instruments) : Instruments :=
  {| targetSize := ∅;
     totalScrapedPayload := totalScrapedPayload s |}.

(** Modelled from the spec: [totalScrapedPayload.Add(v)]. *)
Definition totalScrapedPayload_Add (v : float) (s : Instruments) : Instruments :=
  {| targetSize := targetSize s;
     totalScrapedPayload := (totalScrapedPayload s + v)%float |}.

(** Modelled from the spec: [totalScrapedPayload.Set(v)]. *)
Definition totalScrapedPayload_Set (v : float) (s : Instruments) : Instruments :=
  {| targetSize := targetSize s;
     totalScrapedPayload := v |}.

(** ** prometheus.go *)

(** [ResetTotalScrapedPayload], lines 29-31. *)
Definition ResetTotalScrapedPayload (s : Instruments) : Instruments :=
  totalScrapedPayload_Set 0%float s.

(** [ResetTargetSize], lines 35-37. *)
Definition ResetTargetSize (s : Instruments) : Instruments :=
  targetSize_Reset s.

Definition XPrometheusScrapeTimeoutHeader : string := "X-Prometheus-Scrape-Timeout-Seconds".
Definition AcceptHeader : string := "Accept".

Definition status_error_prefix : string :=
  "status code returned by the prometheus exporter indicates an error occurred: ".

(** What a call of [Get] leaves behind: the two returned values, the state of
    the client and the state of the instruments. *)
Record Outcome (C : Type) : Type := {
  result : MetricFamiliesByName;
  err : option error;
  client_after : C;
  instruments_after : Instruments
}.
Arguments result {C} _.
Arguments err {C} _.
Arguments client_after {C} _.
Arguments instruments_after {C} _.

(** The Go map after [mfs[mf.GetName()] = mf] for every [mf] of [fs], in
    order, starting from [m]. *)
Definition store_all (fs : list MetricFamily) (m : gmap string MetricFamily)
  : gmap string MetricFamily :=
  foldl (λ acc mf, <[GetName mf := mf]> acc) m fs.

(** A GET request for the URL parsed from [url], with the two headers and
    nothing else. *)
Definition scrape_request (url acceptHeader fetchTimeout : string) : Request :=
  {| Method := "GET";
     URL := url_Parse_value url;
     Header := {[ AcceptHeader := [acceptHeader];
                  XPrometheusScrapeTimeoutHeader := [fetchTimeout] ]} |}.

Section Get.
Context {C D : Type} `{!HTTPDoer C} `{!Decoder D}.

(** The error of [url.Parse], which [http.NewRequest] returns: [None] when
    the URL parses. *)
Variable url_Parse : string → option error.

(** [http.NewRequest(method, url, nil)]: the URL is parsed, and the request
    holds the parsed URL and an empty header. *)
Definition http_NewRequest (method url : string) : Request + error :=
  match url_Parse url with
  | Some e => inr e
  | None => inl {| Method := method; URL := url_Parse_value url; Header := ∅ |}
  end.

(** Lines 73-82, the [for] loop.  [None]: the fuel ran out before the
    decoder returned an error.  [Some (inl mfs)]: left through [break].
    [Some (inr e)]: left through [return nil, err]. *)
Fixpoint decode_loop (fuel : nat) (d : D) (mfs : gmap string MetricFamily)
  : option (gmap string MetricFamily + error) :=
  match fuel with
  | O => None
  | S fuel' =>
    match Decode d with
    | (_, inr e) =>
      if decide (e = io_EOF) then Some (inl mfs) else Some (inr e)
    | (d', inl mf) => decode_loop fuel' d' (<[GetName mf := mf]> mfs)
    end
  end.

(** The decoder in state [d] hands out the families [fs], in this order, and
    then returns the error [e]. *)
Fixpoint yields (d : D) (fs : list MetricFamily) (e : error) : Prop :=
  match fs with
  | [] => (Decode d).2 = inr e
  | mf :: fs' => (Decode d).2 = inl mf ∧ yields (Decode d).1 fs' e
  end.

(** [Get], lines 47-88. *)
Definition Get (fuel : nat) (client : C) (url acceptHeader fetchTimeout : string)
    (s : Instruments) : option (Outcome C) :=
  let mfs : gmap string MetricFamily := ∅ in
  match http_NewRequest "GET" url with
  | inr e => Some {| result := Some mfs; err := Some e;
                     client_after := client; instruments_after := s |}
  | inl req =>
    let req := Header_Add AcceptHeader acceptHeader req in
    let req := Header_Add XPrometheusScrapeTimeoutHeader fetchTimeout req in
    match Do client req with
    | (client, inr e) =>
      Some {| result := Some mfs; err := Some e;
              client_after := client; instruments_after := s |}
    | (client, inl resp) =>
      if (StatusCode resp <? 200) || (StatusCode resp >? 300) then
        Some {| result := None;
                err := Some (fmt_Errorf_d status_error_prefix (StatusCode resp));
                client_after := client; instruments_after := s |}
      else
        match ioutil_ReadAll (Body resp) with
        | (_, Some e) =>
          Some {| result := Some mfs; err := Some e;
                  client_after := client; instruments_after := s |}
        | (body, None) =>
          match decode_loop fuel (NewDecoder body FmtText) mfs with
          | None => None
          | Some (inr e) =>
            Some {| result := None; err := Some e;
                    client_after := client; instruments_after := s |}
          | Some (inl mfs) =>
            let bodySize := float64_of_int (len body) in
            let s := targetSize_With_Set url bodySize s in
            let s := totalScrapedPayload_Add bodySize s in
            Some {| result := Some mfs; err := None;
                    client_after := client; instruments_after := s |}
          end
        end
    end
  end.

(** Lines 48-57 of [Get] on their own: the request is built and handed to
    the client, once, before anything is read or decoded.  [inr e]: the
    request could not be built and the client was not called;
    [inl (client, r)]: the client after the call and what it returned. *)
Definition Get_transport (client : C) (url acceptHeader fetchTimeout : string)
  : C * (Response + error) + error :=
  match http_NewRequest "GET" url with
  | inr e => inr e
  | inl req =>
    let req := Header_Add AcceptHeader acceptHeader req in
    let req := Header_Add XPrometheusScrapeTimeoutHeader fetchTimeout req in
    inl (Do client req)
  end.

End Get.

(** The six ways out of [Get]. *)
Inductive Exit : Type :=
| NewRequest_failed | Do_failed | Status_rejected | ReadAll_failed
| Decode_failed | Succeeded.

(** ** Example data *)

(** A URL check in the manner of [url.Parse]: a URL that starts with a colon
    has no scheme. *)
Definition example_url_Parse (u : string) : option error :=
  match u with
  | String (Ascii.Ascii false true false true true true false false) _ =>
    Some (errorString "parse: missing protocol scheme")
  | _ => None
  end.

Definition line (s : string) : list byte := String.list_byte_of_string s ++ [x0a].

Definition body_abc : list byte := line "a 1" ++ line "b 2" ++ line "c 3".
Definition body_dup : list byte := line "a 1" ++ line "b 2" ++ line "a 3".
Definition body_bad3 : list byte := line "a 1" ++ line "b 2" ++ line "c".

Definition response (code : Z) (b : list byte) : Response :=
  {| StatusCode := code; Body := {| stream := b; failure := None |} |}.

Definition broken_response (code : Z) (b : list byte) : Response :=
  {| StatusCode := code;
     Body := {| stream := b; failure := Some (errorString "unexpected EOF") |} |}.

(** A client that has not been called yet and answers [r] to every request,
    and the same client after it was handed the request [req]. *)
Definition spy (r : Response + error) : Spy :=
  {| calls := []; reply := λ _, r |}.

Definition spy_after (req : Request) (r : Response + error) : Spy :=
  {| calls := [req]; reply := λ _, r |}.

Definition busy : Instruments :=
  {| targetSize := {[ "http://other/metrics" := 7%float; "http://h/metrics" := 99%float ]};
     totalScrapedPayload := 1000%float |}.

Definition family (n : string) (v : float) : MetricFamily :=
  {| Name := Some n; Help := None; Type_ := Some UNTYPED;
     Metrics := [untyped_sample v] |}.

Definition target : string := "http://h/metrics".

Definition sent : Request := scrape_request target "text/plain" "5".

Definition status_rejection (code : string) : option error :=
  Some (errorString
    ("status code returned by the prometheus exporter indicates an error occurred: "
     +:+ code)).

Definition abc : list MetricFamily := [family "a" 1; family "b" 2; family "c" 3].

Definition refused : error := errorString "dial tcp: connection refused".

(** What the scrape of [body_abc] leaves behind, starting from [busy]. *)
Definition scraped_abc : Outcome Spy :=
  {| result := Some (store_all abc ∅);
     err := None;
     client_after := spy_after sent (inl (response 200 body_abc));
     instruments_after :=
       {| targetSize := {[ "http://other/metrics" := 7%float;
                           "http://h/metrics" := 12%float ]};
          totalScrapedPayload := 1012%float |} |}.

(** What the scrape of [body_bad3] leaves behind, starting from [busy]. *)
Definition failed_bad3 : Outcome Spy :=
  {| result := None;
     err := Some parse_error;
     client_after := spy_after sent (inl (response 200 body_bad3));
     instruments_after := busy |}.

(** The last family of [fs] that carries the name [n], if any. *)
Definition last_named (n : string) (fs : list MetricFamily) : option MetricFamily :=
  last (filter (λ mf, GetName mf = n) fs).

Definition other_target : string := "http://other/metrics".

(** What the scrape of [body_abc] leaves behind when the instruments were
    reset first. *)
Definition scraped_abc_after_reset : Outcome Spy :=
  {| result := Some (store_all abc ∅);
     err := None;
     client_after := spy_after sent (inl (response 200 body_abc));
     instruments_after :=
       {| targetSize := {[ "http://h/metrics" := 12%float ]};
          totalScrapedPayload := 12%float |} |}.

(** What a second scrape, of [other_target], leaves behind after
    [scraped_abc]. *)
Definition sent_other : Request := scrape_request other_target "text/plain" "5".

Definition scraped_twice : Outcome Spy :=
  {| result := Some (store_all abc ∅);
     err := None;
     client_after :=
       {| calls := [sent; sent_other]; reply := λ _, inl (response 200 body_abc) |};
     instruments_after :=
       {| targetSize := {[ "http://other/metrics" := 12%float;
                           "http://h/metrics" := 12%float ]};
          totalScrapedPayload := 1024%float |} |}.

(** What a scrape answered with status 404 leaves behind, starting from
    [busy]. *)
Definition rejected_404 : Outcome Spy :=
  {| result := None;
     err := status_rejection "404";
     client_after := spy_after sent (inl (response 404 body_abc));
     instruments_after := busy |}.

Definition dup : list MetricFamily := [family "a" 1; family "b" 2; family "a" 3].

(** * Properties *)

(** ** Sizes as [float64] values

    Below [2^53] the conversion of a size to [float64] loses nothing and the
    [float64] sum of two sizes is the size of the sum. *)

Lemma digits2_pos_shiftl (q : positive) (n : N) :
  Zpos (digits2_pos (Pos.shiftl q n)) = Zpos (digits2_pos q) + Z.of_N n.
Proof.
  destruct n as [|p]; unfold Pos.shiftl; cbn [Z.of_N]; [lia|].
  induction p as [|p IH] using Pos.peano_ind.
  - cbn [Pos.iter digits2_pos]. lia.
  - rewrite Pos.iter_succ. cbn [digits2_pos]. lia.
Qed.

Lemma shiftl_shiftl (q : positive) (a b : N) :
  Pos.shiftl (Pos.shiftl q a) b = Pos.shiftl q (a + b).
Proof.
  destruct a as [|a], b as [|b]; unfold Pos.shiftl, N.add; try reflexivity.
  rewrite Pos.add_comm. symmetry. apply Pos.iter_add.
Qed.

Lemma iter_pos_iter {A : Type} (f : A → A) (p : positive) :
  ∀ x, SpecFloat.iter_pos f p x = Pos.iter f x p.
Proof.
  induction p as [p IH|p IH|]; intros x; simpl.
  - rewrite !IH, !Pos.iter_swap. reflexivity.
  - rewrite !IH. reflexivity.
  - reflexivity.
Qed.

Lemma shr_1_shiftl (q p : positive) :
  SpecFloat.iter_pos shr_1 p {| shr_m := Zpos (Pos.iter xO q p); shr_r := false; shr_s := false |}
  = {| shr_m := Zpos q; shr_r := false; shr_s := false |}.
Proof.
  rewrite iter_pos_iter. revert q.
  induction p as [|p IH] using Pos.peano_ind; intros q.
  - reflexivity.
  - rewrite !Pos.iter_succ. rewrite <- (Pos.iter_swap p _ shr_1). simpl. apply IH.
Qed.

Lemma fexp64_eq (e : Z) : -1021 ≤ e → fexp prec emax e = e - 53.
Proof. unfold fexp, emin, prec, emax. lia. Qed.

Lemma binary_round_aux_canonical (M : positive) (E : Z) :
  Zpos (digits2_pos M) = 53 → -1074 ≤ E ≤ 971 →
  binary_round_aux prec emax false (Zpos M) E loc_Exact = S754_finite false M E.
Proof.
  intros HM HE. unfold binary_round_aux, shr_fexp. simpl Zdigits2.
  rewrite HM.
  assert (fexp prec emax (53 + E) - E = 0) as -> by (unfold fexp, emin, prec, emax; lia).
  cbn [shr shr_record_of_loc loc_of_shr_record shr_m round_nearest_even Zdigits2].
  rewrite HM.
  assert (fexp prec emax (53 + E) - E = 0) as -> by (unfold fexp, emin, prec, emax; lia).
  cbn [shr shr_record_of_loc loc_of_shr_record shr_m round_nearest_even Zdigits2].
  assert ((E <=? emax - prec) = true) as -> by (apply Z.leb_le; unfold emax, prec; lia).
  reflexivity.
Qed.

Lemma binary_round_aux_shr (M p : positive) (E : Z) :
  Zpos (digits2_pos M) = 53 → -1074 ≤ E + Zpos p ≤ 971 →
  binary_round_aux prec emax false (Zpos (Pos.iter xO M p)) E loc_Exact
  = S754_finite false M (E + Zpos p).
Proof.
  intros HM HE.
  pose proof (digits2_pos_shiftl M (Npos p)) as Hd.
  unfold Pos.shiftl in Hd. cbn [Z.of_N] in Hd. rewrite HM in Hd.
  unfold binary_round_aux, shr_fexp.
  cbn [Zdigits2 shr_record_of_loc]. rewrite Hd.
  assert (fexp prec emax (53 + Zpos p + E) - E = Zpos p) as ->
    by (unfold fexp, emin, prec, emax; lia).
  cbn [shr]. rewrite shr_1_shiftl.
  cbn [shr_m loc_of_shr_record round_nearest_even Zdigits2 shr_record_of_loc].
  rewrite HM.
  assert (fexp prec emax (53 + (E + Zpos p)) - (E + Zpos p) = 0) as ->
    by (unfold fexp, emin, prec, emax; lia).
  cbn [shr shr_m].
  assert ((E + Zpos p <=? emax - prec) = true) as ->
    by (apply Z.leb_le; unfold emax, prec; lia).
  reflexivity.
Qed.

Lemma binary_round_shiftl (q : positive) (k : Z) :
  0 ≤ k ≤ 1000 → Zpos (digits2_pos q) ≤ 53 →
  binary_round prec emax false (Pos.shiftl q (Z.to_N k)) (- k) = SF_of_pos q.
Proof.
  intros Hk Hd. unfold binary_round, SF_of_pos.
  pose proof (digits2_pos_shiftl q (Z.to_N k)) as Hdk. rewrite Z2N.id in Hdk by lia.
  rewrite Hdk.
  assert (Zpos (digits2_pos q) + k + - k = Zpos (digits2_pos q)) as -> by lia.
  rewrite fexp64_eq by lia.
  set (d := Zpos (digits2_pos q)) in *.
  assert (Zpos (digits2_pos (Pos.shiftl q (Z.to_N (53 - d)))) = 53) as Hcanon.
  { rewrite digits2_pos_shiftl. fold d. lia. }
  unfold shl_align.
  destruct (d - 53 - - k) as [|p|p] eqn:Hp.
  - assert (k = 53 - d) as -> by lia.
    assert (- (53 - d) = d - 53) as -> by lia.
    apply binary_round_aux_canonical; [assumption|lia].
  - assert (Z.to_N k = (Z.to_N (53 - d) + Npos p)%N) as -> by lia.
    rewrite <- shiftl_shiftl. unfold Pos.shiftl at 1.
    rewrite binary_round_aux_shr by (assumption || lia).
    f_equal. lia.
  - change (Pos.iter xO ?x p) with (Pos.shiftl x (Npos p)).
    rewrite shiftl_shiftl.
    assert ((Z.to_N k + Npos p)%N = Z.to_N (53 - d)) as -> by lia.
    apply binary_round_aux_canonical; [assumption|lia].
Qed.

Lemma digits2_pos_log2 (q : positive) :
  Zpos (digits2_pos q) = Z.log2 (Zpos q) + 1.
Proof.
  induction q as [q IH|q IH|].
  - cbn [digits2_pos]. rewrite Pos2Z.inj_succ, IH, Pos2Z.inj_xI.
    rewrite Z.log2_succ_double by lia. lia.
  - cbn [digits2_pos]. rewrite Pos2Z.inj_succ, IH, Pos2Z.inj_xO.
    rewrite Z.log2_double by lia. lia.
  - reflexivity.
Qed.

Lemma digits2_pos_bound (q : positive) :
  Zpos q < 2 ^ 53 → Zpos (digits2_pos q) ≤ 53.
Proof.
  intros Hq. rewrite digits2_pos_log2.
  apply Z.log2_lt_pow2 in Hq; lia.
Qed.

Lemma shiftl_add (a b : positive) (n : N) :
  (Pos.shiftl a n + Pos.shiftl b n)%positive = Pos.shiftl (a + b) n.
Proof.
  destruct n as [|p]; [reflexivity|]. unfold Pos.shiftl.
  induction p as [|p IH] using Pos.peano_ind.
  - reflexivity.
  - rewrite !Pos.iter_succ, <- IH. reflexivity.
Qed.

Lemma shiftl_inj (a b : positive) (n : N) :
  Pos.shiftl a n = Pos.shiftl b n → a = b.
Proof.
  destruct n as [|p]; [easy|]. unfold Pos.shiftl.
  induction p as [|p IH] using Pos.peano_ind.
  - cbn. congruence.
  - rewrite !Pos.iter_succ. intros [= H]. auto.
Qed.

Lemma Prim2SF_float64_of_int (n : Z) :
  0 ≤ n < 2 ^ 53 → Prim2SF (float64_of_int n) = SF_of_int n.
Proof.
  intros Hn. unfold float64_of_int.
  rewrite of_uint63_spec, Uint63.of_Z_spec.
  rewrite Z.mod_small by (change wB with (2 ^ 63); lia).
  destruct n as [|q|q]; [reflexivity| |lia].
  cbn [binary_normalize SF_of_int].
  apply (binary_round_shiftl q 0); [lia|].
  apply digits2_pos_bound. lia.
Qed.

Lemma shl_align_fst (a : positive) (ez : Z) :
  ez ≤ Zpos (digits2_pos a) - 53 → Zpos (digits2_pos a) ≤ 53 →
  fst (shl_align (Pos.shiftl a (Z.to_N (53 - Zpos (digits2_pos a))))
         (Zpos (digits2_pos a) - 53) ez)
  = Pos.shiftl a (Z.to_N (- ez)).
Proof.
  intros Hez Hd. unfold shl_align.
  destruct (ez - (Zpos (digits2_pos a) - 53)) as [|p|p] eqn:Hp; cbn [fst].
  - f_equal. lia.
  - lia.
  - change (Pos.iter xO ?x p) with (Pos.shiftl x (Npos p)).
    rewrite shiftl_shiftl. f_equal. lia.
Qed.

Lemma SFadd_of_pos (a b : positive) :
  Zpos a + Zpos b < 2 ^ 53 →
  SFadd prec emax (SF_of_pos a) (SF_of_pos b) = SF_of_pos (a + b).
Proof.
  intros Hab.
  assert (Zpos (digits2_pos a) ≤ 53) as Ha by (apply digits2_pos_bound; lia).
  assert (Zpos (digits2_pos b) ≤ 53) as Hb by (apply digits2_pos_bound; lia).
  assert (Zpos (digits2_pos (a + b)) ≤ 53) as Hs
    by (apply digits2_pos_bound; rewrite Pos2Z.inj_add; lia).
  unfold SF_of_pos at 1 2. cbn [SFadd cond_Zopp].
  set (ez := Z.min (Zpos (digits2_pos a) - 53) (Zpos (digits2_pos b) - 53)).
  rewrite !shl_align_fst by (assumption || lia).
  rewrite <- Pos2Z.inj_add, shiftl_add. cbn [binary_normalize].
  replace ez with (- - ez) at 2 by lia.
  rewrite <- (Z2N.id (- ez)) at 2 by lia.
  rewrite Z2N.id by lia.
  apply binary_round_shiftl; [lia | assumption].
Qed.

Lemma SFadd_of_int (a b : Z) :
  0 ≤ a → 0 ≤ b → a + b < 2 ^ 53 →
  SFadd prec emax (SF_of_int a) (SF_of_int b) = SF_of_int (a + b).
Proof.
  intros Ha Hb Hab.
  destruct a as [|a|a], b as [|b|b]; try lia; try reflexivity.
  cbn [SF_of_int Z.add]. apply SFadd_of_pos. lia.
Qed.

Theorem float64_of_int_add (a b : Z) :
  0 ≤ a → 0 ≤ b → a + b < 2 ^ 53 →
  (float64_of_int a + float64_of_int b)%float = float64_of_int (a + b).
Proof.
  intros Ha Hb Hab. apply Prim2SF_inj.
  rewrite add_spec, !Prim2SF_float64_of_int by lia.
  apply SFadd_of_int; assumption.
Qed.

Theorem float64_of_int_inj (a b : Z) :
  0 ≤ a < 2 ^ 53 → 0 ≤ b < 2 ^ 53 →
  float64_of_int a = float64_of_int b → a = b.
Proof.
  intros Ha Hb Heq. apply (f_equal Prim2SF) in Heq.
  rewrite !Prim2SF_float64_of_int in Heq by assumption.
  destruct a as [|a|a], b as [|b|b]; try lia;
    cbn [SF_of_int] in Heq; unfold SF_of_pos in Heq; try discriminate.
  pose proof (f_equal (fun x => match x with S754_finite _ _ e => e | _ => 0 end) Heq)
    as He.
  pose proof (f_equal (fun x => match x with S754_finite _ m _ => m | _ => xH end) Heq)
    as Hm.
  cbv beta iota in He, Hm.
  assert (Zpos (digits2_pos a) = Zpos (digits2_pos b)) as Hd by lia.
  rewrite Hd in Hm. apply shiftl_inj in Hm. congruence.
Qed.

(** ** The map built by the decode loop *)

Lemma store_all_app (fs gs : list MetricFamily) (m : gmap string MetricFamily) :
  store_all (fs ++ gs) m = store_all gs (store_all fs m).
Proof. unfold store_all. apply foldl_app. Qed.

Lemma store_all_cons (mf : MetricFamily) (fs : list MetricFamily)
    (m : gmap string MetricFamily) :
  store_all (mf :: fs) m = store_all fs (<[GetName mf := mf]> m).
Proof. reflexivity. Qed.

(** A name none of the families carries keeps its entry. *)
Lemma store_all_lookup_other (fs : list MetricFamily) (m : gmap string MetricFamily)
    (n : string) :
  (∀ mf, mf ∈ fs → GetName mf ≠ n) →
  store_all fs m !! n = m !! n.
Proof.
  revert m. induction fs as [|mf fs IH]; intros m Hn; [done|].
  rewrite store_all_cons, IH.
  - apply lookup_insert_ne, Hn. left.
  - intros mf' Hin. apply Hn. by right.
Qed.

(** The last family stored under a name is the one found there. *)
Lemma store_all_lookup_last (pre post : list MetricFamily) (mf : MetricFamily)
    (m : gmap string MetricFamily) :
  (∀ mf', mf' ∈ post → GetName mf' ≠ GetName mf) →
  store_all (pre ++ mf :: post) m !! GetName mf = Some mf.
Proof.
  intros Hpost.
  rewrite store_all_app, store_all_cons, store_all_lookup_other by done.
  apply lookup_insert_eq.
Qed.

Lemma store_all_dom (fs : list MetricFamily) (m : gmap string MetricFamily) :
  dom (store_all fs m) = list_to_set (GetName <$> fs) ∪ dom m.
Proof.
  revert m. induction fs as [|mf fs IH]; intros m.
  - simpl. set_solver.
  - rewrite store_all_cons, IH, dom_insert_L. simpl. set_solver.
Qed.

Lemma store_all_lookup_NoDup (fs : list MetricFamily) (m : gmap string MetricFamily)
    (mf : MetricFamily) :
  NoDup (GetName <$> fs) → mf ∈ fs →
  store_all fs m !! GetName mf = Some mf.
Proof.
  intros Hnd Hin.
  apply list_elem_of_split in Hin as (pre & post & ->).
  apply store_all_lookup_last.
  intros mf' Hin' Heq.
  rewrite fmap_app, fmap_cons in Hnd.
  apply NoDup_app in Hnd as (_ & _ & Hnd).
  apply NoDup_cons in Hnd as [Hnotin _].
  apply Hnotin. rewrite <- Heq. by apply list_elem_of_fmap_2.
Qed.

(** ** The request of lines 49-55 *)

Lemma header_keys_differ : AcceptHeader ≠ XPrometheusScrapeTimeoutHeader.
Proof. discriminate. Qed.

Lemma Header_Add_twice (url acceptHeader fetchTimeout : string) :
  Header_Add XPrometheusScrapeTimeoutHeader fetchTimeout
    (Header_Add AcceptHeader acceptHeader
       {| Method := "GET"; URL := url_Parse_value url; Header := ∅ |})
  = scrape_request url acceptHeader fetchTimeout.
Proof. reflexivity. Qed.

(** ** The two resets *)

Lemma ResetTargetSize_unset (s : Instruments) (target : string) :
  targetSize (ResetTargetSize s) !! target = None
  ∧ totalScrapedPayload (ResetTargetSize s) = totalScrapedPayload s.
Proof. split; [apply lookup_empty | done]. Qed.

Lemma ResetTotalScrapedPayload_zero (s : Instruments) :
  totalScrapedPayload (ResetTotalScrapedPayload s) = 0%float
  ∧ targetSize (ResetTotalScrapedPayload s) = targetSize s.
Proof. done. Qed.

(** ** The scrape *)

Lemma status_check (code : Z) :
  (code <? 200) || (code >? 300) = false ↔ 200 ≤ code ≤ 300.
Proof. rewrite orb_false_iff, Z.ltb_ge, Z.gtb_ltb, Z.ltb_ge. lia. Qed.

Lemma status_check_rejects (code : Z) :
  (code <? 200) || (code >? 300) = true ↔ code < 200 ∨ 300 < code.
Proof. rewrite orb_true_iff, Z.ltb_lt, Z.gtb_ltb, Z.ltb_lt. tauto. Qed.

Section Get_facts.
Context {C D : Type} `{!HTTPDoer C} `{!Decoder D}.
Variable url_Parse : string → option error.

(** With more fuel than families, the loop runs to the decoder's error. *)
Lemma decode_loop_yields (fs : list MetricFamily) :
  ∀ (fuel : nat) (d : D) (m : gmap string MetricFamily) (e : error),
    yields d fs e → (length fs < fuel)%nat →
    decode_loop fuel d m
    = Some (if decide (e = io_EOF) then inl (store_all fs m) else inr e).
Proof.
  induction fs as [|mf fs IH]; intros fuel d m e Hy Hfuel;
    (destruct fuel as [|fuel]; [simpl in Hfuel; lia|]); simpl in *.
  - destruct (Decode d) as [d' r]. simpl in Hy. subst r.
    by destruct (decide (e = io_EOF)).
  - destruct Hy as [Hmf Hy]. destruct (Decode d) as [d' r]. simpl in *. subst r.
    apply IH; [done | lia].
Qed.

(** Whatever the loop returns, it returns with any larger fuel too. *)
Lemma decode_loop_mono (fuel fuel' : nat) (d : D) (m : gmap string MetricFamily)
    (r : gmap string MetricFamily + error) :
  decode_loop fuel d m = Some r → (fuel ≤ fuel')%nat →
  decode_loop fuel' d m = Some r.
Proof.
  revert fuel' d m. induction fuel as [|fuel IH]; intros fuel' d m Hr Hle; [done|].
  destruct fuel' as [|fuel']; [lia|]. simpl in *.
  destruct (Decode d) as [d' [mf|e]]; [|done].
  apply IH; [done | lia].
Qed.

(** What the loop returns is the decoder's sequence, stored in order. *)
Lemma decode_loop_inv (fuel : nat) :
  ∀ (d : D) (m : gmap string MetricFamily) (r : gmap string MetricFamily + error),
    decode_loop fuel d m = Some r →
    ∃ fs e, yields d fs e ∧ (length fs < fuel)%nat ∧
            r = if decide (e = io_EOF) then inl (store_all fs m) else inr e.
Proof.
  induction fuel as [|fuel IH]; intros d m r Hr; [done|]. simpl in Hr.
  destruct (Decode d) as [d' [mf|e]] eqn:Hd.
  - apply IH in Hr as (fs & e & Hy & Hlen & ->).
    exists (mf :: fs), e. simpl. rewrite Hd. simpl. repeat split; [done | lia].
  - exists [], e. simpl. rewrite Hd. simpl. repeat split; [lia|].
    destruct (decide (e = io_EOF)); congruence.
Qed.

(** *** The five ways out with an error, and the one without *)

Ltac Get_start Hurl HDo :=
  unfold Get, http_NewRequest; rewrite Hurl; cbv zeta;
  rewrite Header_Add_twice, HDo.

Lemma Get_NewRequest_fails (fuel : nat) (client : C)
    (url acceptHeader fetchTimeout : string) (s : Instruments) (e : error) :
  url_Parse url = Some e →
  Get url_Parse fuel client url acceptHeader fetchTimeout s
  = Some {| result := Some ∅; err := Some e;
            client_after := client; instruments_after := s |}.
Proof. intros Hurl. unfold Get, http_NewRequest. by rewrite Hurl. Qed.

Lemma Get_Do_fails (fuel : nat) (client client' : C)
    (url acceptHeader fetchTimeout : string) (s : Instruments) (e : error) :
  url_Parse url = None →
  Do client (scrape_request url acceptHeader fetchTimeout) = (client', inr e) →
  Get url_Parse fuel client url acceptHeader fetchTimeout s
  = Some {| result := Some ∅; err := Some e;
            client_after := client'; instruments_after := s |}.
Proof. intros Hurl HDo. by Get_start Hurl HDo. Qed.

Lemma Get_status_rejected (fuel : nat) (client client' : C)
    (url acceptHeader fetchTimeout : string) (s : Instruments) (resp : Response) :
  url_Parse url = None →
  Do client (scrape_request url acceptHeader fetchTimeout) = (client', inl resp) →
  StatusCode resp < 200 ∨ 300 < StatusCode resp →
  Get url_Parse fuel client url acceptHeader fetchTimeout s
  = Some {| result := None;
            err := Some (fmt_Errorf_d status_error_prefix (StatusCode resp));
            client_after := client'; instruments_after := s |}.
Proof.
  intros Hurl HDo Hcode. Get_start Hurl HDo.
  apply status_check_rejects in Hcode. by rewrite Hcode.
Qed.

Lemma Get_ReadAll_fails (fuel : nat) (client client' : C)
    (url acceptHeader fetchTimeout : string) (s : Instruments) (resp : Response)
    (e : error) :
  url_Parse url = None →
  Do client (scrape_request url acceptHeader fetchTimeout) = (client', inl resp) →
  200 ≤ StatusCode resp ≤ 300 →
  failure (Body resp) = Some e →
  Get url_Parse fuel client url acceptHeader fetchTimeout s
  = Some {| result := Some ∅; err := Some e;
            client_after := client'; instruments_after := s |}.
Proof.
  intros Hurl HDo Hcode Hbody. Get_start Hurl HDo.
  apply status_check in Hcode. rewrite Hcode.
  unfold ioutil_ReadAll. by rewrite Hbody.
Qed.

Lemma Get_Decode_fails (fuel : nat) (client client' : C)
    (url acceptHeader fetchTimeout : string) (s : Instruments) (resp : Response)
    (fs : list MetricFamily) (e : error) :
  url_Parse url = None →
  Do client (scrape_request url acceptHeader fetchTimeout) = (client', inl resp) →
  200 ≤ StatusCode resp ≤ 300 →
  failure (Body resp) = None →
  yields (NewDecoder (stream (Body resp)) FmtText) fs e →
  e ≠ io_EOF →
  (length fs < fuel)%nat →
  Get url_Parse fuel client url acceptHeader fetchTimeout s
  = Some {| result := None; err := Some e;
            client_after := client'; instruments_after := s |}.
Proof.
  intros Hurl HDo Hcode Hbody Hy He Hfuel. Get_start Hurl HDo.
  apply status_check in Hcode. rewrite Hcode.
  unfold ioutil_ReadAll. rewrite Hbody.
  rewrite (decode_loop_yields fs fuel _ _ e Hy Hfuel).
  by rewrite decide_False.
Qed.

Lemma Get_succeeds (fuel : nat) (client client' : C)
    (url acceptHeader fetchTimeout : string) (s : Instruments) (resp : Response)
    (fs : list MetricFamily) :
  url_Parse url = None →
  Do client (scrape_request url acceptHeader fetchTimeout) = (client', inl resp) →
  200 ≤ StatusCode resp ≤ 300 →
  failure (Body resp) = None →
  yields (NewDecoder (stream (Body resp)) FmtText) fs io_EOF →
  (length fs < fuel)%nat →
  Get url_Parse fuel client url acceptHeader fetchTimeout s
  = Some {| result := Some (store_all fs ∅); err := None;
            client_after := client';
            instruments_after :=
              totalScrapedPayload_Add (float64_of_int (len (stream (Body resp))))
                (targetSize_With_Set url
                   (float64_of_int (len (stream (Body resp)))) s) |}.
Proof.
  intros Hurl HDo Hcode Hbody Hy Hfuel. Get_start Hurl HDo.
  apply status_check in Hcode. rewrite Hcode.
  unfold ioutil_ReadAll. rewrite Hbody.
  by rewrite (decode_loop_yields fs fuel _ _ io_EOF Hy Hfuel).
Qed.

(** Every call that returns left through one of the six exits. *)
Lemma Get_inv (fuel : nat) (client : C) (url acceptHeader fetchTimeout : string)
    (s : Instruments) (o : Outcome C) :
  Get url_Parse fuel client url acceptHeader fetchTimeout s = Some o →
  ∃ x : Exit,
    match x with
    | NewRequest_failed =>
      ∃ e, url_Parse url = Some e ∧
           o = {| result := Some ∅; err := Some e;
                  client_after := client; instruments_after := s |}
    | Do_failed =>
      ∃ client' e, url_Parse url = None ∧
           Do client (scrape_request url acceptHeader fetchTimeout)
           = (client', inr e) ∧
           o = {| result := Some ∅; err := Some e;
                  client_after := client'; instruments_after := s |}
    | Status_rejected =>
      ∃ client' resp, url_Parse url = None ∧
           Do client (scrape_request url acceptHeader fetchTimeout)
           = (client', inl resp) ∧
           (StatusCode resp < 200 ∨ 300 < StatusCode resp) ∧
           o = {| result := None;
                  err := Some (fmt_Errorf_d status_error_prefix (StatusCode resp));
                  client_after := client'; instruments_after := s |}
    | ReadAll_failed =>
      ∃ client' resp e, url_Parse url = None ∧
           Do client (scrape_request url acceptHeader fetchTimeout)
           = (client', inl resp) ∧
           200 ≤ StatusCode resp ≤ 300 ∧
           failure (Body resp) = Some e ∧
           o = {| result := Some ∅; err := Some e;
                  client_after := client'; instruments_after := s |}
    | Decode_failed =>
      ∃ client' resp fs e, url_Parse url = None ∧
           Do client (scrape_request url acceptHeader fetchTimeout)
           = (client', inl resp) ∧
           200 ≤ StatusCode resp ≤ 300 ∧
           failure (Body resp) = None ∧
           yields (NewDecoder (stream (Body resp)) FmtText) fs e ∧
           e ≠ io_EOF ∧ (length fs < fuel)%nat ∧
           o = {| result := None; err := Some e;
                  client_after := client'; instruments_after := s |}
    | Succeeded =>
      ∃ client' resp fs, url_Parse url = None ∧
           Do client (scrape_request url acceptHeader fetchTimeout)
           = (client', inl resp) ∧
           200 ≤ StatusCode resp ≤ 300 ∧
           failure (Body resp) = None ∧
           yields (NewDecoder (stream (Body resp)) FmtText) fs io_EOF ∧
           (length fs < fuel)%nat ∧
           o = {| result := Some (store_all fs ∅); err := None;
                  client_after := client';
                  instruments_after :=
                    totalScrapedPayload_Add
                      (float64_of_int (len (stream (Body resp))))
                      (targetSize_With_Set url
                         (float64_of_int (len (stream (Body resp)))) s) |}
    end.
Proof.
  unfold Get, http_NewRequest.
  destruct (url_Parse url) as [e|] eqn:Hurl.
  { intros [= <-]. exists NewRequest_failed. eauto. }
  cbv zeta. rewrite Header_Add_twice.
  destruct (Do client _) as [client' [resp|e]] eqn:HDo.
  2: { intros [= <-]. exists Do_failed. eauto. }
  destruct ((StatusCode resp <? 200) || (StatusCode resp >? 300)) eqn:Hcode.
  { intros [= <-]. exists Status_rejected.
    apply status_check_rejects in Hcode. eauto 10. }
  apply status_check in Hcode.
  unfold ioutil_ReadAll. destruct (failure (Body resp)) as [e|] eqn:Hbody.
  { intros [= <-]. exists ReadAll_failed. eauto 10. }
  destruct (decode_loop _ _ _) as [r|] eqn:Hloop; [|done].
  apply decode_loop_inv in Hloop as (fs & e & Hy & Hlen & ->).
  destruct (decide (e = io_EOF)) as [->|He].
  - intros [= <-]. exists Succeeded. eauto 12.
  - intros [= <-]. exists Decode_failed. eauto 14.
Qed.

End Get_facts.

(** *** The line decoder always comes to an end *)

Lemma LineDecoder_yields (fs : list MetricFamily) (e : error) :
  yields (D := LineDecoder) (fs, e) fs e.
Proof. induction fs as [|mf fs IH]; simpl; [done|]. by split. Qed.

(** With the line decoder every call returns, given fuel beyond the number of
    lines of the body. *)
Lemma Get_LineDecoder_returns {C : Type} `{!HTTPDoer C}
    (url_Parse : string → option error) (client : C)
    (url acceptHeader fetchTimeout : string) (s : Instruments) :
  ∃ fuel : nat, ∀ fuel' : nat, (fuel ≤ fuel')%nat →
    ∃ o, Get (D := LineDecoder) url_Parse fuel' client url acceptHeader
           fetchTimeout s = Some o.
Proof.
  destruct (url_Parse url) as [e|] eqn:Hurl.
  { exists O. intros fuel' _. eexists. by apply Get_NewRequest_fails. }
  destruct (Do client (scrape_request url acceptHeader fetchTimeout))
    as [client' [resp|e]] eqn:HDo.
  2: { exists O. intros fuel' _. eexists. by eapply Get_Do_fails. }
  destruct (decide (200 ≤ StatusCode resp ≤ 300)) as [Hcode|Hcode].
  2: { exists O. intros fuel' _. eexists. eapply Get_status_rejected; [done..|lia]. }
  destruct (failure (Body resp)) as [e|] eqn:Hbody.
  { exists O. intros fuel' _. eexists. by eapply Get_ReadAll_fails. }
  destruct (scan_lines (stream (Body resp)) [] None) as [fs e] eqn:Hscan.
  exists (S (length fs)). intros fuel' Hfuel.
  assert (yields (D := LineDecoder) (NewDecoder (stream (Body resp)) FmtText) fs e)
    as Hy by (simpl; rewrite Hscan; apply LineDecoder_yields).
  destruct (decide (e = io_EOF)) as [->|He]; eexists.
  - eapply Get_succeeds; [done..|lia].
  - eapply Get_Decode_fails; [done..|lia].
Qed.

(** * The claims *)

(** Case analysis on the exit of a call that returned. *)
Ltac Get_exits H :=
  apply Get_inv in H as [[] H];
  [ destruct H as (e' & Hurl' & ->)
  | destruct H as (c' & e' & Hurl' & HDo' & ->)
  | destruct H as (c' & resp' & Hurl' & HDo' & Hcode' & ->)
  | destruct H as (c' & resp' & e' & Hurl' & HDo' & Hcode' & Hbody' & ->)
  | destruct H as (c' & resp' & fs' & e' & Hurl' & HDo' & Hcode' & Hbody' & Hy' & He' & Hfuel' & ->)
  | destruct H as (c' & resp' & fs' & Hurl' & HDo' & Hcode' & Hbody' & Hy' & Hfuel' & ->) ].

Section Get_transport_facts.
Context {C D : Type} `{!HTTPDoer C} `{!Decoder D}.
Variable url_Parse : string → option error.

(** [Get] hands its client on as [Get_transport] leaves it. *)
Lemma Get_transport_client (fuel : nat) (client : C)
    (url acceptHeader fetchTimeout : string) (s : Instruments) (o : Outcome C) :
  Get url_Parse fuel client url acceptHeader fetchTimeout s = Some o →
  match Get_transport url_Parse client url acceptHeader fetchTimeout with
  | inr _ => client_after o = client
  | inl (client', _) => client_after o = client'
  end.
Proof.
  intros HGet. unfold Get_transport, http_NewRequest.
  Get_exits HGet; rewrite Hurl'; try done;
    cbv zeta; by rewrite Header_Add_twice, HDo'.
Qed.

End Get_transport_facts.

Section Claims.
Context {C D : Type} `{!HTTPDoer C} `{!Decoder D}.
Variable url_Parse : string → option error.

(** C1: the status check.  For a response the client returned, a status code
    below 200 or above 300 makes [Get] return the nil map and the status
    error that names the code, whatever the body is; a status code from 200
    to 300, both ends included, lets the call go on, so that with a body that
    reads and decodes to its end [Get] returns without error. *)
Theorem C1_status_boundary (fuel : nat) (client client' : C)
    (url acceptHeader fetchTimeout : string) (s : Instruments) (resp : Response) :
  url_Parse url = None →
  Do client (scrape_request url acceptHeader fetchTimeout) = (client', inl resp) →
  (StatusCode resp < 200 ∨ 300 < StatusCode resp →
   Get url_Parse fuel client url acceptHeader fetchTimeout s
   = Some {| result := None;
             err := Some (errorString
               ("status code returned by the prometheus exporter indicates an error occurred: "
                +:+ pretty (StatusCode resp)));
             client_after := client'; instruments_after := s |})
  ∧
  (200 ≤ StatusCode resp ≤ 300 →
   ∀ fs : list MetricFamily,
     failure (Body resp) = None →
     yields (NewDecoder (stream (Body resp)) FmtText) fs io_EOF →
     (length fs < fuel)%nat →
     ∃ o, Get url_Parse fuel client url acceptHeader fetchTimeout s = Some o
          ∧ err o = None ∧ result o = Some (store_all fs ∅)).
Proof.
  intros Hurl HDo. split.
  - intros Hcode. by apply Get_status_rejected.
  - intros Hcode fs Hbody Hy Hfuel.
    eexists. split; [by eapply Get_succeeds|done].
Qed.

(** C2: a decode error other than the end of input.  When the decoder hands
    out some families and then fails with an error that is not [io.EOF], [Get]
    returns the nil map and that error: none of the families decoded before
    the failure is returned. *)
Theorem C2_decode_failure_is_atomic (fuel : nat) (client client' : C)
    (url acceptHeader fetchTimeout : string) (s : Instruments) (resp : Response)
    (fs : list MetricFamily) (e : error) :
  url_Parse url = None →
  Do client (scrape_request url acceptHeader fetchTimeout) = (client', inl resp) →
  200 ≤ StatusCode resp ≤ 300 →
  failure (Body resp) = None →
  yields (NewDecoder (stream (Body resp)) FmtText) fs e →
  e ≠ io_EOF →
  (length fs < fuel)%nat →
  ∃ o, Get url_Parse fuel client url acceptHeader fetchTimeout s = Some o
       ∧ result o = None ∧ err o = Some e.
Proof.
  intros Hurl HDo Hcode Hbody Hy He Hfuel.
  eexists. split; [by eapply Get_Decode_fails|done].
Qed.

(** C3: no side effect on failure.  Whenever [Get] returns an error, whichever
    of the five steps produced it, the size gauge and the scraped-bytes total
    are what they were before the call. *)
Theorem C3_failure_leaves_instruments (fuel : nat) (client : C)
    (url acceptHeader fetchTimeout : string) (s : Instruments) (o : Outcome C)
    (e : error) :
  Get url_Parse fuel client url acceptHeader fetchTimeout s = Some o →
  err o = Some e →
  targetSize (instruments_after o) = targetSize s
  ∧ totalScrapedPayload (instruments_after o) = totalScrapedPayload s.
Proof.
  intros HGet Herr. Get_exits HGet; simpl in *; done.
Qed.

(** C4: the shape of the result on failure.  When the request cannot be
    built, when the client fails, and when reading the body fails, [Get]
    returns the empty map, which is not nil, with the error; when the status
    code is rejected it returns the nil map with the error. *)
Theorem C4_result_shape_on_failure (fuel : nat) (client : C)
    (acceptHeader fetchTimeout : string) (s : Instruments) :
  (∀ url e,
     url_Parse url = Some e →
     Get url_Parse fuel client url acceptHeader fetchTimeout s
     = Some {| result := Some ∅; err := Some e;
               client_after := client; instruments_after := s |})
  ∧
  (∀ url client' e,
     url_Parse url = None →
     Do client (scrape_request url acceptHeader fetchTimeout) = (client', inr e) →
     Get url_Parse fuel client url acceptHeader fetchTimeout s
     = Some {| result := Some ∅; err := Some e;
               client_after := client'; instruments_after := s |})
  ∧
  (∀ url client' resp e,
     url_Parse url = None →
     Do client (scrape_request url acceptHeader fetchTimeout) = (client', inl resp) →
     200 ≤ StatusCode resp ≤ 300 →
     failure (Body resp) = Some e →
     Get url_Parse fuel client url acceptHeader fetchTimeout s
     = Some {| result := Some ∅; err := Some e;
               client_after := client'; instruments_after := s |})
  ∧
  (∀ url client' resp,
     url_Parse url = None →
     Do client (scrape_request url acceptHeader fetchTimeout) = (client', inl resp) →
     StatusCode resp < 200 ∨ 300 < StatusCode resp →
     ∃ e, Get url_Parse fuel client url acceptHeader fetchTimeout s
          = Some {| result := None; err := Some e;
                    client_after := client'; instruments_after := s |}).
Proof.
  repeat split.
  - intros. by apply Get_NewRequest_fails.
  - intros. by apply Get_Do_fails.
  - intros. by eapply Get_ReadAll_fails.
  - intros. eexists. by eapply Get_status_rejected.
Qed.

(** C5: the accounting of a successful scrape.  After a call against [url]
    that returned without error on a body of [N] bytes, the gauge series of
    [url] holds [N], replacing what it held, and the total is its value before
    the call plus [N].  Sizes are [float64] values and the sum is the
    [float64] sum, as in the code; as long as the total stays below [2^53]
    that sum is the sum of the integers: a total that held the count [T]
    holds the count [T + N]. *)
Theorem C5_success_accounting (fuel : nat) (client client' : C)
    (url acceptHeader fetchTimeout : string) (s : Instruments) (resp : Response)
    (o : Outcome C) (N : Z) :
  Do client (scrape_request url acceptHeader fetchTimeout) = (client', inl resp) →
  len (stream (Body resp)) = N →
  Get url_Parse fuel client url acceptHeader fetchTimeout s = Some o →
  err o = None →
  targetSize (instruments_after o) !! url = Some (float64_of_int N)
  ∧ totalScrapedPayload (instruments_after o)
    = (totalScrapedPayload s + float64_of_int N)%float
  ∧ ∀ T : Z,
      0 ≤ T → T + N < 2 ^ 53 →
      totalScrapedPayload s = float64_of_int T →
      totalScrapedPayload (instruments_after o) = float64_of_int (T + N).
Proof.
  intros HDo <- HGet Herr. Get_exits HGet; try done.
  assert (resp' = resp) as -> by congruence.
  split; [apply lookup_insert_eq|]. split; [done|].
  intros T HT Hsum HT'. simpl. rewrite HT'.
  apply float64_of_int_add; [done | unfold len; lia | done].
Qed.

(** C9: success never returns the nil map.  A call that returns without
    error returns a map, and a call that returns the nil map returns an error.
    In particular, on an accepted response with an empty body, for a decoder
    that reports the end of input on the empty input, [Get] returns the empty
    map without error, sets the gauge series of the target to 0 and adds 0 to
    the total. *)
Theorem C9_success_is_never_nil (fuel : nat) (client : C)
    (url acceptHeader fetchTimeout : string) (s : Instruments) :
  (∀ o, Get url_Parse fuel client url acceptHeader fetchTimeout s = Some o →
        (err o = None → ∃ m, result o = Some m)
        ∧ (result o = None → ∃ e, err o = Some e))
  ∧
  (∀ client' code,
     url_Parse url = None →
     Do client (scrape_request url acceptHeader fetchTimeout)
     = (client', inl {| StatusCode := code;
                        Body := {| stream := []; failure := None |} |}) →
     200 ≤ code ≤ 300 →
     (Decode (NewDecoder [] FmtText)).2 = inr io_EOF →
     (0 < fuel)%nat →
     Get url_Parse fuel client url acceptHeader fetchTimeout s
     = Some {| result := Some ∅; err := None; client_after := client';
               instruments_after :=
                 {| targetSize := <[url := 0%float]> (targetSize s);
                    totalScrapedPayload := (totalScrapedPayload s + 0)%float |} |}).
Proof.
  split.
  - intros o HGet. Get_exits HGet; simpl; split; intros; eauto; done.
  - intros client' code Hurl HDo Hcode Hd Hfuel.
    by rewrite (Get_succeeds url_Parse fuel client client' url acceptHeader
                  fetchTimeout s _ [] Hurl HDo Hcode eq_refl Hd Hfuel).
Qed.

(** C10: the other targets.  A call against [url] that returns without error
    leaves the gauge series of every other target as it was. *)
Theorem C10_other_targets_untouched (fuel : nat) (client : C)
    (url acceptHeader fetchTimeout : string) (s : Instruments) (o : Outcome C)
    (other : string) :
  Get url_Parse fuel client url acceptHeader fetchTimeout s = Some o →
  err o = None →
  other ≠ url →
  targetSize (instruments_after o) !! other = targetSize s !! other.
Proof.
  intros HGet Herr Hne. Get_exits HGet; try done.
  simpl. by apply lookup_insert_ne.
Qed.

End Claims.

Section Claims_spy.
Context {D : Type} `{!Decoder D}.
Variable url_Parse : string → option error.


End Claims_spy.

(** * The claims on concrete scrapes

    The transport is the recording [Spy], the decoder the [LineDecoder], the
    target [http://h/metrics]. *)

Lemma C1_status_boundary_witness :
  (Get (D := LineDecoder) example_url_Parse 4 (spy (inl (response 199 body_abc)))
     target "text/plain" "5" busy
   = Some {| result := None; err := status_rejection "199";
             client_after := spy_after sent (inl (response 199 body_abc));
             instruments_after := busy |})
  ∧
  (Get (D := LineDecoder) example_url_Parse 4 (spy (inl (response 301 body_abc)))
     target "text/plain" "5" busy
   = Some {| result := None; err := status_rejection "301";
             client_after := spy_after sent (inl (response 301 body_abc));
             instruments_after := busy |})
  ∧
  (∃ o, Get (D := LineDecoder) example_url_Parse 4 (spy (inl (response 200 body_abc)))
          target "text/plain" "5" busy = Some o
        ∧ err o = None ∧ result o = Some (store_all abc ∅))
  ∧
  (∃ o, Get (D := LineDecoder) example_url_Parse 4 (spy (inl (response 300 body_abc)))
          target "text/plain" "5" busy = Some o
        ∧ err o = None ∧ result o = Some (store_all abc ∅)).
Proof.
  repeat apply conj.
  - apply (proj1 (C1_status_boundary (D := LineDecoder) example_url_Parse 4
             (spy (inl (response 199 body_abc)))
             (spy_after sent (inl (response 199 body_abc)))
             target "text/plain" "5" busy (response 199 body_abc)
             eq_refl eq_refl)).
    left. reflexivity.
  - apply (proj1 (C1_status_boundary (D := LineDecoder) example_url_Parse 4
             (spy (inl (response 301 body_abc)))
             (spy_after sent (inl (response 301 body_abc)))
             target "text/plain" "5" busy (response 301 body_abc)
             eq_refl eq_refl)).
    right. reflexivity.
  - apply (proj2 (C1_status_boundary (D := LineDecoder) example_url_Parse 4
             (spy (inl (response 200 body_abc)))
             (spy_after sent (inl (response 200 body_abc)))
             target "text/plain" "5" busy (response 200 body_abc)
             eq_refl eq_refl)).
    + simpl. lia.
    + reflexivity.
    + vm_compute. repeat split.
    + simpl. lia.
  - apply (proj2 (C1_status_boundary (D := LineDecoder) example_url_Parse 4
             (spy (inl (response 300 body_abc)))
             (spy_after sent (inl (response 300 body_abc)))
             target "text/plain" "5" busy (response 300 body_abc)
             eq_refl eq_refl)).
    + simpl. lia.
    + reflexivity.
    + vm_compute. repeat split.
    + simpl. lia.
Defined.

Lemma C2_decode_failure_is_atomic_witness :
  ∃ o, Get (D := LineDecoder) example_url_Parse 4 (spy (inl (response 200 body_bad3)))
         target "text/plain" "5" busy = Some o
       ∧ result o = None ∧ err o = Some parse_error.
Proof.
  apply (C2_decode_failure_is_atomic (D := LineDecoder) example_url_Parse 4
           (spy (inl (response 200 body_bad3)))
           (spy_after sent (inl (response 200 body_bad3)))
           target "text/plain" "5" busy (response 200 body_bad3)
           [family "a" 1; family "b" 2] parse_error eq_refl eq_refl).
  - simpl. lia.
  - reflexivity.
  - vm_compute. repeat split.
  - discriminate.
  - simpl. lia.
Defined.

Lemma C3_failure_leaves_instruments_witness :
  Get (D := LineDecoder) example_url_Parse 4 (spy (inl (response 200 body_bad3)))
    target "text/plain" "5" busy = Some failed_bad3
  ∧ targetSize (instruments_after failed_bad3) = targetSize busy
  ∧ totalScrapedPayload (instruments_after failed_bad3) = totalScrapedPayload busy.
Proof.
  split; [vm_compute; reflexivity|].
  apply (C3_failure_leaves_instruments (D := LineDecoder) example_url_Parse 4
           (spy (inl (response 200 body_bad3)))
           target "text/plain" "5" busy failed_bad3 parse_error).
  - vm_compute. reflexivity.
  - reflexivity.
Defined.

Lemma C4_result_shape_on_failure_witness :
  (Get (D := LineDecoder) example_url_Parse 4 (spy (inl (response 200 body_abc)))
     ":metrics" "text/plain" "5" busy
   = Some {| result := Some ∅;
             err := Some (errorString "parse: missing protocol scheme");
             client_after := spy (inl (response 200 body_abc));
             instruments_after := busy |})
  ∧
  (Get (D := LineDecoder) example_url_Parse 4 (spy (inr refused))
     target "text/plain" "5" busy
   = Some {| result := Some ∅; err := Some refused;
             client_after := spy_after sent (inr refused);
             instruments_after := busy |})
  ∧
  (Get (D := LineDecoder) example_url_Parse 4
     (spy (inl (broken_response 200 body_abc))) target "text/plain" "5" busy
   = Some {| result := Some ∅; err := Some (errorString "unexpected EOF");
             client_after := spy_after sent (inl (broken_response 200 body_abc));
             instruments_after := busy |})
  ∧
  (∃ e, Get (D := LineDecoder) example_url_Parse 4
          (spy (inl (response 404 body_abc))) target "text/plain" "5" busy
        = Some {| result := None; err := Some e;
                  client_after := spy_after sent (inl (response 404 body_abc));
                  instruments_after := busy |}).
Proof.
  repeat apply conj.
  - apply (proj1 (C4_result_shape_on_failure (D := LineDecoder) example_url_Parse 4
                    (spy (inl (response 200 body_abc))) "text/plain" "5" busy)).
    reflexivity.
  - apply (proj1 (proj2 (C4_result_shape_on_failure (D := LineDecoder)
                    example_url_Parse 4 (spy (inr refused)) "text/plain" "5" busy)));
      reflexivity.
  - apply (proj1 (proj2 (proj2 (C4_result_shape_on_failure (D := LineDecoder)
                    example_url_Parse 4 (spy (inl (broken_response 200 body_abc)))
                    "text/plain" "5" busy)))
             target _ (broken_response 200 body_abc)).
    + reflexivity.
    + reflexivity.
    + simpl. lia.
    + reflexivity.
  - apply (proj2 (proj2 (proj2 (C4_result_shape_on_failure (D := LineDecoder)
                    example_url_Parse 4 (spy (inl (response 404 body_abc)))
                    "text/plain" "5" busy)))
             target _ (response 404 body_abc)).
    + reflexivity.
    + reflexivity.
    + right. reflexivity.
Defined.

Lemma C5_success_accounting_witness :
  Get (D := LineDecoder) example_url_Parse 4 (spy (inl (response 200 body_abc)))
    target "text/plain" "5" busy = Some scraped_abc
  ∧ targetSize (instruments_after scraped_abc) !! target = Some 12%float
  ∧ totalScrapedPayload (instruments_after scraped_abc) = 1012%float
  ∧ totalScrapedPayload (instruments_after scraped_abc) = float64_of_int (1000 + 12).
Proof.
  split; [vm_compute; reflexivity|].
  destruct (C5_success_accounting (D := LineDecoder) example_url_Parse 4
              (spy (inl (response 200 body_abc)))
              (spy_after sent (inl (response 200 body_abc)))
              target "text/plain" "5" busy (response 200 body_abc) scraped_abc 12)
    as (Hgauge & Htotal & Hexact).
  - reflexivity.
  - reflexivity.
  - vm_compute. reflexivity.
  - reflexivity.
  - split; [exact Hgauge|]. split; [exact Htotal|].
    apply (Hexact 1000); [lia | lia | reflexivity].
Defined.


Lemma C9_success_is_never_nil_witness :
  (Get (D := LineDecoder) example_url_Parse 4 (spy (inl (response 200 body_abc)))
     target "text/plain" "5" busy = Some scraped_abc
   ∧ ∃ m, result scraped_abc = Some m)
  ∧
  Get (D := LineDecoder) example_url_Parse 4 (spy (inl (response 200 [])))
    target "text/plain" "5" busy
  = Some {| result := Some ∅; err := None;
            client_after := spy_after sent (inl (response 200 []));
            instruments_after :=
              {| targetSize := {[ "http://other/metrics" := 7%float;
                                  "http://h/metrics" := 0%float ]};
                 totalScrapedPayload := 1000%float |} |}.
Proof.
  split.
  - split; [vm_compute; reflexivity|].
    apply (proj1 (C9_success_is_never_nil (D := LineDecoder) example_url_Parse 4
                    (spy (inl (response 200 body_abc))) target "text/plain" "5" busy)
             scraped_abc).
    + vm_compute. reflexivity.
    + reflexivity.
  - rewrite (proj2 (C9_success_is_never_nil (D := LineDecoder) example_url_Parse 4
                      (spy (inl (response 200 []))) target "text/plain" "5" busy)
               (spy_after sent (inl (response 200 []))) 200).
    + vm_compute. reflexivity.
    + reflexivity.
    + reflexivity.
    + lia.
    + reflexivity.
    + lia.
Defined.

Lemma C10_other_targets_untouched_witness :
  Get (D := LineDecoder) example_url_Parse 4 (spy (inl (response 200 body_abc)))
    target "text/plain" "5" busy = Some scraped_abc
  ∧ targetSize (instruments_after scraped_abc) !! "http://other/metrics"
    = Some 7%float.
Proof.
  split; [vm_compute; reflexivity|].
  rewrite (C10_other_targets_untouched (D := LineDecoder) example_url_Parse 4
             (spy (inl (response 200 body_abc))) target "text/plain" "5" busy
             scraped_abc "http://other/metrics").
  - reflexivity.
  - vm_compute. reflexivity.
  - reflexivity.
  - discriminate.
Defined.

(** * Further properties of the scrape *)

(** ** The returned map, name by name *)

Lemma store_all_snoc (fs : list MetricFamily) (mf : MetricFamily)
    (m : gmap string MetricFamily) :
  store_all (fs ++ [mf]) m = <[GetName mf := mf]> (store_all fs m).
Proof. by rewrite store_all_app. Qed.

Lemma store_all_lookup (fs : list MetricFamily) (m : gmap string MetricFamily)
    (n : string) :
  store_all fs m !! n
  = match last_named n fs with
    | Some mf => Some mf
    | None => m !! n
    end.
Proof.
  unfold last_named. induction fs as [|mf fs IH] using rev_ind; [done|].
  rewrite store_all_snoc, filter_app.
  destruct (decide (GetName mf = n)) as [Heq|Hne].
  - rewrite (filter_cons_True _ mf []) by done. rewrite filter_nil, last_snoc.
    rewrite <- Heq. apply lookup_insert_eq.
  - rewrite (filter_cons_False _ mf []) by done. rewrite filter_nil, app_nil_r.
    by rewrite lookup_insert_ne.
Qed.

Lemma size_list_to_set_le (l : list string) :
  (size (list_to_set l : gset string) ≤ length l)%nat.
Proof.
  induction l as [|x l IH]; [by rewrite list_to_set_nil, size_empty|].
  rewrite list_to_set_cons. simpl length.
  destruct (decide (x ∈ (list_to_set l : gset string))) as [Hin|Hnin].
  - assert ({[x]} ∪ list_to_set l = (list_to_set l : gset string)) as ->
      by set_solver.
    lia.
  - rewrite size_union, size_singleton by set_solver. lia.
Qed.

Lemma size_list_to_set_NoDup (l : list string) :
  size (list_to_set l : gset string) = length l → NoDup l.
Proof.
  induction l as [|x l IH]; [constructor|].
  rewrite list_to_set_cons. simpl length. intros Hsize.
  pose proof (size_list_to_set_le l) as Hle.
  destruct (decide (x ∈ (list_to_set l : gset string))) as [Hin|Hnin].
  - assert ({[x]} ∪ list_to_set l = (list_to_set l : gset string)) as Heq
      by set_solver.
    rewrite Heq in Hsize. lia.
  - rewrite size_union, size_singleton in Hsize by set_solver.
    constructor; [set_solver | apply IH; lia].
Qed.

Lemma store_all_size (fs : list MetricFamily) :
  (size (store_all fs ∅) ≤ length fs)%nat
  ∧ (size (store_all fs ∅) = length fs ↔ NoDup (GetName <$> fs)).
Proof.
  rewrite <- size_dom, store_all_dom, dom_empty_L, union_empty_r_L.
  pose proof (size_list_to_set_le (GetName <$> fs)) as Hle.
  rewrite length_fmap in Hle. split; [done|]. split.
  - intros Hsize. apply size_list_to_set_NoDup. by rewrite length_fmap.
  - intros Hnd. by rewrite size_list_to_set, length_fmap.
Qed.

(** ** What a decoder yields is determined by its state *)

Lemma yields_functional {D : Type} `{!Decoder D} (fs : list MetricFamily) :
  ∀ (d : D) (fs' : list MetricFamily) (e e' : error),
    yields d fs e → yields d fs' e' → fs = fs' ∧ e = e'.
Proof.
  induction fs as [|mf fs IH]; intros d [|mf' fs'] e e'; simpl.
  - intros H1 H2. split; [done | congruence].
  - intros H1 [H2 _]. congruence.
  - intros [H1 _] H2. congruence.
  - intros [H1 Hy] [H2 Hy']. assert (mf = mf') as <- by congruence.
    destruct (IH _ _ _ _ Hy Hy') as [-> ->]. done.
Qed.

Lemma string_app_cancel (p a b : string) : p +:+ a = p +:+ b → a = b.
Proof. induction p as [|c p IH]; simpl; [done|]. intros [= H]. auto. Qed.

Lemma float64_of_int_0_l (N : Z) :
  0 ≤ N < 2 ^ 53 → (0 + float64_of_int N)%float = float64_of_int N.
Proof.
  intros HN. change 0%float with (float64_of_int 0).
  by rewrite float64_of_int_add by lia.
Qed.

Section Further.
Context {C D : Type} `{!HTTPDoer C} `{!Decoder D}.
Variable url_Parse : string → option error.

(** X1: the returned map, name by name.  On success the entry of every name
    is the last family the decoder handed out under that name, and a name no
    family carries has no entry. *)
Theorem X1_result_by_name (fuel : nat) (client client' : C)
    (url acceptHeader fetchTimeout : string) (s : Instruments) (resp : Response)
    (fs : list MetricFamily) :
  url_Parse url = None →
  Do client (scrape_request url acceptHeader fetchTimeout) = (client', inl resp) →
  200 ≤ StatusCode resp ≤ 300 →
  failure (Body resp) = None →
  yields (NewDecoder (stream (Body resp)) FmtText) fs io_EOF →
  (length fs < fuel)%nat →
  ∃ o m, Get url_Parse fuel client url acceptHeader fetchTimeout s = Some o
         ∧ err o = None ∧ result o = Some m
         ∧ ∀ n, m !! n = last_named n fs.
Proof.
  intros Hurl HDo Hcode Hbody Hy Hfuel.
  eexists _, _. split; [by eapply Get_succeeds|].
  simpl. do 2 (split; [done|]). intros n.
  rewrite store_all_lookup, lookup_empty. by destruct (last_named n fs).
Qed.

(** X2: the size of the returned map.  On success the map has at most as many
    entries as the decoder handed out families, and exactly as many precisely
    when no two of them share a name. *)
Theorem X2_result_size (fuel : nat) (client client' : C)
    (url acceptHeader fetchTimeout : string) (s : Instruments) (resp : Response)
    (fs : list MetricFamily) :
  url_Parse url = None →
  Do client (scrape_request url acceptHeader fetchTimeout) = (client', inl resp) →
  200 ≤ StatusCode resp ≤ 300 →
  failure (Body resp) = None →
  yields (NewDecoder (stream (Body resp)) FmtText) fs io_EOF →
  (length fs < fuel)%nat →
  ∃ o m, Get url_Parse fuel client url acceptHeader fetchTimeout s = Some o
         ∧ err o = None ∧ result o = Some m
         ∧ (size m ≤ length fs)%nat
         ∧ (size m = length fs ↔ NoDup (GetName <$> fs)).
Proof.
  intros Hurl HDo Hcode Hbody Hy Hfuel.
  eexists _, _. split; [by eapply Get_succeeds|].
  simpl. do 2 (split; [done|]). apply store_all_size.
Qed.

(** X3: no entry ever comes with an error.  Whenever [Get] returns an error,
    the map it returns is nil or empty. *)
Theorem X3_error_never_with_entries (fuel : nat) (client : C)
    (url acceptHeader fetchTimeout : string) (s : Instruments) (o : Outcome C)
    (e : error) :
  Get url_Parse fuel client url acceptHeader fetchTimeout s = Some o →
  err o = Some e →
  result o = None ∨ result o = Some ∅.
Proof.
  intros HGet Herr. Get_exits HGet; simpl in *; auto; done.
Qed.

(** X5: two scrapes in a row.  After two successful calls, the second made
    with the client and the instruments the first left behind, the series of
    the second target holds the size of the second body, the series of the
    first target still holds the size of the first body when the targets
    differ, and a total that held the count [T] holds [T] plus both sizes, as
    long as that stays below [2^53]. *)
Theorem X5_two_scrapes (fuel1 fuel2 : nat) (client client1 client2 : C)
    (url1 url2 acceptHeader fetchTimeout : string) (s : Instruments)
    (resp1 resp2 : Response) (o1 o2 : Outcome C) :
  Do client (scrape_request url1 acceptHeader fetchTimeout) = (client1, inl resp1) →
  Get url_Parse fuel1 client url1 acceptHeader fetchTimeout s = Some o1 →
  err o1 = None →
  Do (client_after o1) (scrape_request url2 acceptHeader fetchTimeout)
  = (client2, inl resp2) →
  Get url_Parse fuel2 (client_after o1) url2 acceptHeader fetchTimeout
    (instruments_after o1) = Some o2 →
  err o2 = None →
  targetSize (instruments_after o2) !! url2
  = Some (float64_of_int (len (stream (Body resp2))))
  ∧ (url1 ≠ url2 →
     targetSize (instruments_after o2) !! url1
     = Some (float64_of_int (len (stream (Body resp1)))))
  ∧ ∀ T : Z,
      0 ≤ T →
      T + len (stream (Body resp1)) + len (stream (Body resp2)) < 2 ^ 53 →
      totalScrapedPayload s = float64_of_int T →
      totalScrapedPayload (instruments_after o2)
      = float64_of_int (T + len (stream (Body resp1)) + len (stream (Body resp2))).
Proof.
  intros HDo1 HGet1 Herr1 HDo2 HGet2 Herr2.
  Get_exits HGet1; try done.
  assert (resp' = resp1) as -> by congruence.
  clear HDo' Hurl' Hcode' Hbody' Hy' Hfuel'. rename c' into c1, fs' into fs1.
  simpl in HDo2, HGet2.
  Get_exits HGet2; try done.
  assert (resp' = resp2) as -> by congruence. simpl.
  split; [apply lookup_insert_eq|]. split.
  - intros Hne. rewrite lookup_insert_ne by done. apply lookup_insert_eq.
  - intros T HT Hsum HT'. rewrite HT'.
    rewrite !float64_of_int_add by (unfold len in *; lia). done.
Qed.

(** X6: a scrape after both resets.  When the two instruments were reset and
    a call then succeeds on a body of fewer than [2^53] bytes, the gauge has
    the series of the target and no other, holding the body size, and the
    total is the body size. *)
Theorem X6_scrape_after_resets (fuel : nat) (client client' : C)
    (url acceptHeader fetchTimeout : string) (s : Instruments) (resp : Response)
    (o : Outcome C) :
  Do client (scrape_request url acceptHeader fetchTimeout) = (client', inl resp) →
  len (stream (Body resp)) < 2 ^ 53 →
  Get url_Parse fuel client url acceptHeader fetchTimeout
    (ResetTargetSize (ResetTotalScrapedPayload s)) = Some o →
  err o = None →
  targetSize (instruments_after o)
  = {[ url := float64_of_int (len (stream (Body resp))) ]}
  ∧ totalScrapedPayload (instruments_after o)
    = float64_of_int (len (stream (Body resp))).
Proof.
  intros HDo Hlen HGet Herr. Get_exits HGet; try done.
  assert (resp' = resp) as -> by congruence. simpl.
  split; [apply insert_empty|].
  apply float64_of_int_0_l. unfold len in *. lia.
Qed.

(** X7: the resets after a scrape.  After a successful call, [ResetTargetSize]
    leaves the target without a series and keeps the total of the call, and
    [ResetTotalScrapedPayload] puts the total at 0 and keeps the series of the
    target. *)
Theorem X7_resets_after_scrape (fuel : nat) (client client' : C)
    (url acceptHeader fetchTimeout : string) (s : Instruments) (resp : Response)
    (o : Outcome C) :
  Do client (scrape_request url acceptHeader fetchTimeout) = (client', inl resp) →
  Get url_Parse fuel client url acceptHeader fetchTimeout s = Some o →
  err o = None →
  (targetSize (ResetTargetSize (instruments_after o)) !! url = None
   ∧ totalScrapedPayload (ResetTargetSize (instruments_after o))
     = (totalScrapedPayload s + float64_of_int (len (stream (Body resp))))%float)
  ∧ (totalScrapedPayload (ResetTotalScrapedPayload (instruments_after o)) = 0%float
     ∧ targetSize (ResetTotalScrapedPayload (instruments_after o)) !! url
       = Some (float64_of_int (len (stream (Body resp))))).
Proof.
  intros HDo HGet Herr. Get_exits HGet; try done.
  assert (resp' = resp) as -> by congruence. simpl.
  repeat split. apply lookup_insert_eq.
Qed.

(** X8: the gauge tells the size.  After a successful call on a body of [N]
    bytes, with [N] below [2^53], the value in the series of the target is
    the [float64] of [N] and of no other count below [2^53]. *)
Theorem X8_gauge_identifies_size (fuel : nat) (client client' : C)
    (url acceptHeader fetchTimeout : string) (s : Instruments) (resp : Response)
    (o : Outcome C) (M : Z) :
  Do client (scrape_request url acceptHeader fetchTimeout) = (client', inl resp) →
  len (stream (Body resp)) < 2 ^ 53 →
  Get url_Parse fuel client url acceptHeader fetchTimeout s = Some o →
  err o = None →
  0 ≤ M < 2 ^ 53 →
  targetSize (instruments_after o) !! url = Some (float64_of_int M)
  ↔ M = len (stream (Body resp)).
Proof.
  intros HDo Hlen HGet Herr HM. Get_exits HGet; try done.
  assert (resp' = resp) as -> by congruence. simpl.
  rewrite lookup_insert_eq. split.
  - intros [= Heq]. symmetry. apply float64_of_int_inj; [unfold len in *; lia|done..].
  - by intros ->.
Qed.

(** X9: the status error names the code.  Two calls rejected for their status
    code return the same error only when the two codes are the same. *)
Theorem X9_status_error_names_code (fuel1 fuel2 : nat) (client1 client2 client1' client2' : C)
    (url1 url2 acceptHeader fetchTimeout : string) (s1 s2 : Instruments)
    (resp1 resp2 : Response) (o1 o2 : Outcome C) :
  url_Parse url1 = None → url_Parse url2 = None →
  Do client1 (scrape_request url1 acceptHeader fetchTimeout) = (client1', inl resp1) →
  Do client2 (scrape_request url2 acceptHeader fetchTimeout) = (client2', inl resp2) →
  StatusCode resp1 < 200 ∨ 300 < StatusCode resp1 →
  StatusCode resp2 < 200 ∨ 300 < StatusCode resp2 →
  Get url_Parse fuel1 client1 url1 acceptHeader fetchTimeout s1 = Some o1 →
  Get url_Parse fuel2 client2 url2 acceptHeader fetchTimeout s2 = Some o2 →
  err o1 = err o2 →
  StatusCode resp1 = StatusCode resp2.
Proof.
  intros Hurl1 Hurl2 HDo1 HDo2 Hcode1 Hcode2 HGet1 HGet2 Herr.
  rewrite (Get_status_rejected url_Parse fuel1 client1 client1' url1 acceptHeader
             fetchTimeout s1 resp1 Hurl1 HDo1 Hcode1) in HGet1.
  rewrite (Get_status_rejected url_Parse fuel2 client2 client2' url2 acceptHeader
             fetchTimeout s2 resp2 Hurl2 HDo2 Hcode2) in HGet2.
  injection HGet1 as <-. injection HGet2 as <-. simpl in Herr.
  unfold fmt_Errorf_d in Herr. injection Herr as Herr.
  apply string_app_cancel in Herr. by apply (inj pretty).
Qed.

(** X10: when a call succeeds.  A call that returns does so without error
    exactly when the URL parses, the client returns a response, the status
    code is from 200 to 300, the body reads to its end and the decoder ends
    on [io.EOF]. *)
Theorem X10_success_exactly_when (fuel : nat) (client : C)
    (url acceptHeader fetchTimeout : string) (s : Instruments) (o : Outcome C) :
  Get url_Parse fuel client url acceptHeader fetchTimeout s = Some o →
  err o = None
  ↔ ∃ client' resp fs,
      url_Parse url = None
      ∧ Do client (scrape_request url acceptHeader fetchTimeout) = (client', inl resp)
      ∧ 200 ≤ StatusCode resp ≤ 300
      ∧ failure (Body resp) = None
      ∧ yields (NewDecoder (stream (Body resp)) FmtText) fs io_EOF.
Proof.
  intros HGet. split.
  - intros Herr. Get_exits HGet; try done. eauto 10.
  - intros (client' & resp & fs & Hurl & HDo & Hcode & Hbody & Hy).
    Get_exits HGet; simpl; try done; try congruence.
    + assert (resp' = resp) as -> by congruence. lia.
    + assert (resp' = resp) as -> by congruence.
      destruct (yields_functional _ _ _ _ _ Hy Hy') as [_ <-]. done.
Qed.

(** X11: the series of the gauge.  A call that returns without error leaves
    the gauge with the series it had and the one of its target; a call that
    returns an error leaves it with the series it had. *)
Theorem X11_gauge_series (fuel : nat) (client : C)
    (url acceptHeader fetchTimeout : string) (s : Instruments) (o : Outcome C) :
  Get url_Parse fuel client url acceptHeader fetchTimeout s = Some o →
  dom (targetSize (instruments_after o))
  = match err o with
    | None => {[ url ]} ∪ dom (targetSize s)
    | Some _ => dom (targetSize s)
    end.
Proof.
  intros HGet. Get_exits HGet; simpl; try done. apply dom_insert_L.
Qed.

(** X12: the instruments are only written.  What a call returns, and the
    state it leaves its client in, do not depend on what the gauge and the
    total hold when it starts. *)
Theorem X12_instruments_never_read (fuel : nat) (client : C)
    (url acceptHeader fetchTimeout : string) (s1 s2 : Instruments) :
  (λ o : Outcome C, (result o, err o, client_after o))
    <$> Get url_Parse fuel client url acceptHeader fetchTimeout s1
  = (λ o : Outcome C, (result o, err o, client_after o))
    <$> Get url_Parse fuel client url acceptHeader fetchTimeout s2.
Proof.
  unfold Get. destruct (http_NewRequest url_Parse "GET" url) as [req|e]; [|done].
  cbv zeta. destruct (Do client _) as [client' [resp|e]]; [|done].
  destruct ((StatusCode resp <? 200) || (StatusCode resp >? 300)); [done|].
  destruct (ioutil_ReadAll (Body resp)) as [body [e|]]; [done|].
  by destruct (decode_loop fuel (NewDecoder body FmtText) ∅) as [[m|e]|].
Qed.

End Further.

(** ** The further properties on concrete scrapes *)

Lemma X1_result_by_name_witness :
  ∃ o m, Get (D := LineDecoder) example_url_Parse 4
           (spy (inl (response 200 body_dup))) target "text/plain" "5" busy = Some o
         ∧ err o = None ∧ result o = Some m
         ∧ ∀ n, m !! n = last_named n dup.
Proof.
  apply (X1_result_by_name (D := LineDecoder) example_url_Parse 4
           (spy (inl (response 200 body_dup)))
           (spy_after sent (inl (response 200 body_dup)))
           target "text/plain" "5" busy (response 200 body_dup) dup
           eq_refl eq_refl).
  - simpl. lia.
  - reflexivity.
  - vm_compute. repeat split.
  - simpl. lia.
Defined.

Lemma X2_result_size_witness :
  ∃ o m, Get (D := LineDecoder) example_url_Parse 4
           (spy (inl (response 200 body_dup))) target "text/plain" "5" busy = Some o
         ∧ err o = None ∧ result o = Some m
         ∧ (size m ≤ length dup)%nat
         ∧ (size m = length dup ↔ NoDup (GetName <$> dup)).
Proof.
  apply (X2_result_size (D := LineDecoder) example_url_Parse 4
           (spy (inl (response 200 body_dup)))
           (spy_after sent (inl (response 200 body_dup)))
           target "text/plain" "5" busy (response 200 body_dup) dup
           eq_refl eq_refl).
  - simpl. lia.
  - reflexivity.
  - vm_compute. repeat split.
  - simpl. lia.
Defined.

Lemma X3_error_never_with_entries_witness :
  Get (D := LineDecoder) example_url_Parse 4 (spy (inl (response 200 body_bad3)))
    target "text/plain" "5" busy = Some failed_bad3
  ∧ (result failed_bad3 = None ∨ result failed_bad3 = Some ∅).
Proof.
  split; [vm_compute; reflexivity|].
  apply (X3_error_never_with_entries (D := LineDecoder) example_url_Parse 4
           (spy (inl (response 200 body_bad3)))
           target "text/plain" "5" busy failed_bad3 parse_error).
  - vm_compute. reflexivity.
  - reflexivity.
Defined.

Lemma X5_two_scrapes_witness :
  Get (D := LineDecoder) example_url_Parse 4 (spy (inl (response 200 body_abc)))
    target "text/plain" "5" busy = Some scraped_abc
  ∧ Get (D := LineDecoder) example_url_Parse 4 (client_after scraped_abc)
      other_target "text/plain" "5" (instruments_after scraped_abc)
    = Some scraped_twice
  ∧ targetSize (instruments_after scraped_twice) !! other_target = Some 12%float
  ∧ targetSize (instruments_after scraped_twice) !! target = Some 12%float
  ∧ totalScrapedPayload (instruments_after scraped_twice)
    = float64_of_int (1000 + 12 + 12).
Proof.
  split; [vm_compute; reflexivity|]. split; [vm_compute; reflexivity|].
  destruct (X5_two_scrapes (D := LineDecoder) example_url_Parse 4 4
              (spy (inl (response 200 body_abc)))
              (spy_after sent (inl (response 200 body_abc)))
              (client_after scraped_twice)
              target other_target "text/plain" "5" busy
              (response 200 body_abc) (response 200 body_abc)
              scraped_abc scraped_twice)
    as (Hsecond & Hfirst & Htotal).
  - reflexivity.
  - vm_compute. reflexivity.
  - reflexivity.
  - reflexivity.
  - vm_compute. reflexivity.
  - reflexivity.
  - split; [exact Hsecond|]. split; [apply Hfirst; discriminate|].
    apply (Htotal 1000); [lia | vm_compute; reflexivity | reflexivity].
Defined.

Lemma X6_scrape_after_resets_witness :
  Get (D := LineDecoder) example_url_Parse 4 (spy (inl (response 200 body_abc)))
    target "text/plain" "5" (ResetTargetSize (ResetTotalScrapedPayload busy))
  = Some scraped_abc_after_reset
  ∧ targetSize (instruments_after scraped_abc_after_reset)
    = {[ target := float64_of_int 12 ]}
  ∧ totalScrapedPayload (instruments_after scraped_abc_after_reset)
    = float64_of_int 12.
Proof.
  split; [vm_compute; reflexivity|].
  apply (X6_scrape_after_resets (D := LineDecoder) example_url_Parse 4
           (spy (inl (response 200 body_abc)))
           (spy_after sent (inl (response 200 body_abc)))
           target "text/plain" "5" busy (response 200 body_abc)
           scraped_abc_after_reset).
  - reflexivity.
  - vm_compute. reflexivity.
  - vm_compute. reflexivity.
  - reflexivity.
Defined.

Lemma X7_resets_after_scrape_witness :
  Get (D := LineDecoder) example_url_Parse 4 (spy (inl (response 200 body_abc)))
    target "text/plain" "5" busy = Some scraped_abc
  ∧ (targetSize (ResetTargetSize (instruments_after scraped_abc)) !! target = None
     ∧ totalScrapedPayload (ResetTargetSize (instruments_after scraped_abc))
       = (1000 + float64_of_int 12)%float)
  ∧ (totalScrapedPayload (ResetTotalScrapedPayload (instruments_after scraped_abc))
     = 0%float
     ∧ targetSize (ResetTotalScrapedPayload (instruments_after scraped_abc)) !! target
       = Some (float64_of_int 12)).
Proof.
  split; [vm_compute; reflexivity|].
  apply (X7_resets_after_scrape (D := LineDecoder) example_url_Parse 4
           (spy (inl (response 200 body_abc)))
           (spy_after sent (inl (response 200 body_abc)))
           target "text/plain" "5" busy (response 200 body_abc) scraped_abc).
  - reflexivity.
  - vm_compute. reflexivity.
  - reflexivity.
Defined.

Lemma X8_gauge_identifies_size_witness :
  Get (D := LineDecoder) example_url_Parse 4 (spy (inl (response 200 body_abc)))
    target "text/plain" "5" busy = Some scraped_abc
  ∧ (targetSize (instruments_after scraped_abc) !! target = Some (float64_of_int 12)
     ↔ 12 = len body_abc).
Proof.
  split; [vm_compute; reflexivity|].
  apply (X8_gauge_identifies_size (D := LineDecoder) example_url_Parse 4
           (spy (inl (response 200 body_abc)))
           (spy_after sent (inl (response 200 body_abc)))
           target "text/plain" "5" busy (response 200 body_abc) scraped_abc 12).
  - reflexivity.
  - vm_compute. reflexivity.
  - vm_compute. reflexivity.
  - reflexivity.
  - lia.
Defined.

Lemma X9_status_error_names_code_witness :
  Get (D := LineDecoder) example_url_Parse 0 (spy (inl (response 404 body_abc)))
    target "text/plain" "5" busy = Some rejected_404
  ∧ StatusCode (response 404 body_abc) = StatusCode (response 404 body_dup).
Proof.
  split; [vm_compute; reflexivity|].
  apply (X9_status_error_names_code (D := LineDecoder) example_url_Parse 0 4
           (spy (inl (response 404 body_abc))) (spy (inl (response 404 body_dup)))
           (spy_after sent (inl (response 404 body_abc)))
           (spy_after sent_other (inl (response 404 body_dup)))
           target other_target "text/plain" "5" busy busy
           (response 404 body_abc) (response 404 body_dup)
           rejected_404
           {| result := None; err := status_rejection "404";
              client_after := spy_after sent_other (inl (response 404 body_dup));
              instruments_after := busy |}).
  - reflexivity.
  - reflexivity.
  - reflexivity.
  - reflexivity.
  - right. reflexivity.
  - right. reflexivity.
  - vm_compute. reflexivity.
  - vm_compute. reflexivity.
  - reflexivity.
Defined.

Lemma X10_success_exactly_when_witness :
  Get (D := LineDecoder) example_url_Parse 4 (spy (inl (response 200 body_abc)))
    target "text/plain" "5" busy = Some scraped_abc
  ∧ (err scraped_abc = None
     ↔ ∃ client' resp fs,
         example_url_Parse target = None
         ∧ Do (spy (inl (response 200 body_abc))) (scrape_request target "text/plain" "5")
           = (client', inl resp)
         ∧ 200 ≤ StatusCode resp ≤ 300
         ∧ failure (Body resp) = None
         ∧ yields (D := LineDecoder) (NewDecoder (stream (Body resp)) FmtText) fs io_EOF).
Proof.
  split; [vm_compute; reflexivity|].
  apply (X10_success_exactly_when (D := LineDecoder) example_url_Parse 4
           (spy (inl (response 200 body_abc))) target "text/plain" "5" busy
           scraped_abc).
  vm_compute. reflexivity.
Defined.

Lemma X11_gauge_series_witness :
  Get (D := LineDecoder) example_url_Parse 4 (spy (inl (response 200 body_abc)))
    target "text/plain" "5" busy = Some scraped_abc
  ∧ dom (targetSize (instruments_after scraped_abc))
    = {[ target ]} ∪ dom (targetSize busy).
Proof.
  split; [vm_compute; reflexivity|].
  apply (X11_gauge_series (D := LineDecoder) example_url_Parse 4
           (spy (inl (response 200 body_abc))) target "text/plain" "5" busy
           scraped_abc).
  vm_compute. reflexivity.
Defined.

(** * The text decoder on plain sample lines *)

Lemma samples_of_snoc (n : string) (samples : list (string * Z)) (nv : string * Z) :
  samples_of n (samples ++ [nv])
  = samples_of n samples ++ (if decide (nv.1 = n) then [nv.2] else []).
Proof.
  unfold samples_of. rewrite filter_app, fmap_app. f_equal.
  destruct (decide (nv.1 = n)) as [Heq|Hne].
  - by rewrite (filter_cons_True _ nv []), filter_nil.
  - by rewrite (filter_cons_False _ nv []), filter_nil.
Qed.

(** The families the parser has collected: under every name that occurs, one
    family with the samples of all the lines of that name, in order. *)
Lemma foldl_add_sample_lookup (samples : list (string * Z)) (n : string) :
  foldl add_sample ∅ samples !! n
  = match samples_of n samples with
    | [] => None
    | vs => Some (samples_family n vs)
    end.
Proof.
  induction samples as [|[n' v'] samples IH] using rev_ind; [done|].
  rewrite foldl_snoc, samples_of_snoc. unfold add_sample at 1. simpl.
  destruct (decide (n' = n)) as [->|Hne].
  - rewrite lookup_insert_eq, IH.
    destruct (samples_of n samples) as [|v vs]; simpl; [done|].
    unfold samples_family. simpl. by rewrite fmap_app.
  - rewrite lookup_insert_ne, IH, app_nil_r by done. done.
Qed.

Lemma foldl_add_sample_key (samples : list (string * Z)) (k : string)
    (mf : MetricFamily) :
  foldl add_sample ∅ samples !! k = Some mf → GetName mf = k.
Proof.
  rewrite foldl_add_sample_lookup.
  destruct (samples_of k samples); [done|]. by intros [= <-].
Qed.

Lemma foldl_add_sample_size (samples : list (string * Z)) :
  (size (foldl add_sample ∅ samples) ≤ length samples)%nat.
Proof.
  induction samples as [|nv samples IH] using rev_ind.
  { change (foldl add_sample ∅ []) with (∅ : gmap string MetricFamily).
    by rewrite map_size_empty. }
  rewrite foldl_snoc, length_app. unfold add_sample at 1.
  rewrite map_size_insert. cbn [length].
  destruct (foldl add_sample ∅ samples !! nv.1); unfold id; lia.
Qed.

(** Storing the families of a map of families, each under its own name and in
    any order, gives the map back. *)
Lemma store_all_range (fams : gmap string MetricFamily) (l : list MetricFamily) :
  l ≡ₚ (map_to_list fams).*2 →
  (∀ k mf, fams !! k = Some mf → GetName mf = k) →
  store_all l ∅ = fams.
Proof.
  intros Hperm Hkey.
  assert (GetName <$> (map_to_list fams).*2 = (map_to_list fams).*1) as Hnames.
  { apply list_eq. intros i. rewrite !list_lookup_fmap.
    destruct (map_to_list fams !! i) as [[k mf]|] eqn:Hi; [|done]. simpl. f_equal.
    apply Hkey, elem_of_map_to_list, list_elem_of_lookup. eauto. }
  assert (NoDup (GetName <$> l)) as Hnd.
  { rewrite Hperm, Hnames. apply NoDup_fst_map_to_list. }
  apply map_eq. intros n. destruct (fams !! n) as [mf|] eqn:Hn.
  - rewrite <- (Hkey _ _ Hn). apply store_all_lookup_NoDup; [done|].
    rewrite Hperm. apply list_elem_of_fmap. exists (n, mf).
    split; [done|]. by apply elem_of_map_to_list.
  - rewrite store_all_lookup_other, lookup_empty; [done|].
    intros mf Hin <-. rewrite Hperm in Hin.
    apply list_elem_of_fmap in Hin as ([k mf'] & -> & Hin). simpl in *.
    apply elem_of_map_to_list in Hin. rewrite (Hkey _ _ Hin) in Hn. congruence.
Qed.

Lemma textDecoder_yields
    (other : list byte → gmap string MetricFamily * option error)
    (range : gmap string MetricFamily → list MetricFamily)
    (fs : list MetricFamily) (e : error) :
  @yields _ (textDecoder other range) (fs, e) fs e.
Proof. induction fs as [|mf fs IH]; simpl; [done|]. by split. Qed.

Lemma samples_of_absent (n : string) (samples : list (string * Z)) :
  n ∉ samples.*1 → samples_of n samples = [].
Proof.
  induction samples as [|[n' v'] samples IH]; [done|].
  rewrite fmap_cons, not_elem_of_cons. simpl. intros [Hne Hnotin].
  unfold samples_of. rewrite filter_cons_False by (simpl; congruence).
  by apply IH.
Qed.

Lemma samples_of_once (n : string) (v : Z) (samples : list (string * Z)) :
  NoDup samples.*1 → (n, v) ∈ samples → samples_of n samples = [v].
Proof.
  induction samples as [|[n' v'] samples IH]; [by intros _ ?%elem_of_nil|].
  rewrite fmap_cons, NoDup_cons. simpl. intros [Hnotin Hnd] Hin.
  apply elem_of_cons in Hin as [[= -> ->]|Hin].
  - unfold samples_of. rewrite filter_cons_True by done.
    rewrite fmap_cons. simpl. f_equal. by apply samples_of_absent.
  - assert (n' ≠ n) as Hne.
    { intros ->. apply Hnotin, list_elem_of_fmap. by exists (n, v). }
    unfold samples_of. rewrite filter_cons_False by done. by apply IH.
Qed.

Lemma foldl_add_sample_dom (samples : list (string * Z)) :
  dom (foldl add_sample ∅ samples) = list_to_set samples.*1.
Proof.
  induction samples as [|nv samples IH] using rev_ind.
  { change (foldl add_sample ∅ []) with (∅ : gmap string MetricFamily).
    by rewrite dom_empty_L. }
  rewrite foldl_snoc. unfold add_sample at 1.
  rewrite dom_insert_L, IH, fmap_app, list_to_set_app_L. simpl. set_solver.
Qed.

Section Text_claims.
Context {C : Type} `{!HTTPDoer C}.
Variable url_Parse : string → option error.
Variable other : list byte → gmap string MetricFamily * option error.
Variable range : gmap string MetricFamily → list MetricFamily.

(** A scrape of a body of plain sample lines, read by the text decoder. *)
Lemma Get_plain_samples (fuel : nat) (client client' : C)
    (url acceptHeader fetchTimeout : string) (s : Instruments) (resp : Response)
    (samples : list (string * Z)) :
  (∀ fams, range fams ≡ₚ (map_to_list fams).*2) →
  url_Parse url = None →
  Do client (scrape_request url acceptHeader fetchTimeout) = (client', inl resp) →
  200 ≤ StatusCode resp ≤ 300 →
  failure (Body resp) = None →
  plain_samples (stream (Body resp)) = Some samples →
  (length samples < fuel)%nat →
  @Get C _ _ (textDecoder other range) url_Parse fuel client url acceptHeader
    fetchTimeout s
  = Some {| result := Some (foldl add_sample ∅ samples); err := None;
            client_after := client';
            instruments_after :=
              totalScrapedPayload_Add (float64_of_int (len (stream (Body resp))))
                (targetSize_With_Set url
                   (float64_of_int (len (stream (Body resp)))) s) |}.
Proof.
  intros Hrange Hurl HDo Hcode Hbody Hplain Hfuel.
  set (fams := foldl add_sample ∅ samples).
  assert (@NewDecoder _ (textDecoder other range) (stream (Body resp)) FmtText
          = (range fams, io_EOF)) as Hnew.
  { simpl. unfold TextToMetricFamilies. by rewrite Hplain. }
  rewrite (@Get_succeeds C _ _ (textDecoder other range) url_Parse fuel client
             client' url acceptHeader fetchTimeout s resp (range fams)
             Hurl HDo Hcode Hbody).
  - do 3 f_equal. apply store_all_range; [done|].
    apply foldl_add_sample_key.
  - rewrite Hnew. apply textDecoder_yields.
  - rewrite (Hrange fams), length_fmap, length_map_to_list.
    pose proof (foldl_add_sample_size samples). unfold fams. lia.
Qed.


(** X13: plain sample lines with pairwise distinct names.  For a body of
    plain sample lines in which no name occurs twice, the returned map has
    exactly the names of the body as keys, and under each of them the untyped
    family with the one sample of that line. *)
Theorem X13_plain_lines_round_trip (fuel : nat) (client client' : C)
    (url acceptHeader fetchTimeout : string) (s : Instruments) (resp : Response)
    (samples : list (string * Z)) :
  (∀ fams, range fams ≡ₚ (map_to_list fams).*2) →
  url_Parse url = None →
  Do client (scrape_request url acceptHeader fetchTimeout) = (client', inl resp) →
  200 ≤ StatusCode resp ≤ 300 →
  failure (Body resp) = None →
  plain_samples (stream (Body resp)) = Some samples →
  NoDup samples.*1 →
  (length samples < fuel)%nat →
  ∃ o m, @Get C _ _ (textDecoder other range) url_Parse fuel client url
           acceptHeader fetchTimeout s = Some o
         ∧ err o = None ∧ result o = Some m
         ∧ dom m = list_to_set samples.*1
         ∧ ∀ n v, (n, v) ∈ samples → m !! n = Some (samples_family n [v]).
Proof.
  intros Hrange Hurl HDo Hcode Hbody Hplain Hnd Hfuel.
  eexists _, _. split; [by eapply Get_plain_samples|].
  simpl. do 2 (split; [done|]). split; [apply foldl_add_sample_dom|].
  intros n v Hin. by rewrite foldl_add_sample_lookup, (samples_of_once n v).
Qed.

End Text_claims.

(** ** The text decoder on concrete scrapes *)



Lemma X13_plain_lines_round_trip_witness :
  ∃ o m, @Get Spy _ Spy_HTTPDoer (textDecoder example_other example_range)
           example_url_Parse 4 (spy (inl (response 200 body_abc)))
           target "text/plain" "5" busy = Some o
         ∧ err o = None ∧ result o = Some m
         ∧ dom m = list_to_set ["a"; "b"; "c"]
         ∧ ∀ n v, (n, v) ∈ [("a", 1); ("b", 2); ("c", 3)] →
                  m !! n = Some (samples_family n [v]).
Proof.
  apply (X13_plain_lines_round_trip example_url_Parse example_other example_range 4
           (spy (inl (response 200 body_abc)))
           (spy_after sent (inl (response 200 body_abc)))
           target "text/plain" "5" busy (response 200 body_abc)
           [("a", 1); ("b", 2); ("c", 3)]).
  - intros fams. reflexivity.
  - reflexivity.
  - reflexivity.
  - simpl. lia.
  - reflexivity.
  - vm_compute. reflexivity.
  - apply (bool_decide_unpack _). vm_compute. exact I.
  - simpl. lia.
Defined.
